(** * Personal cash-flow ledger: transaction model and monthly summary

    A shallow embedding of [cashflow.py]: the [Transaction] dataclass with its
    [__post_init__] validation, [is_active_in_month] and [calculate_summary],
    then [parse_month], the data file and the commands [handle_add],
    [handle_list], [handle_summary] and [handle_reset], followed by the
    properties the specification states about them and by further
    properties of the code.

    Modelling conventions.
    - A Python [str] is a [string]; [==] is [String.eqb] and [<], [>] are the
      lexicographic order [String.ltb] (Python orders strings by code point,
      [String.compare] by character code).
    - [Optional[str]] is [option string]; its truth value is [truthy]:
      [None] and the empty string are false, every other string is true.
    - The ledger [Dict[str, List[Dict]]] is a [gmap string (list Transaction)].
      The inner dicts are the [asdict] images of the dataclass ([handle_add]),
      so they carry exactly its fields and are modelled by the same record;
      a month that is [None] (or, for [txn.get], missing) is [None] here.
    - Amounts and balances are Python numbers.  The code only uses [+], [-],
      the literal [0] and the builtin [sum] on them, so the model is generic
      in a [Number] interface with one instance per kind of number the
      program meets: [int] (the amounts of the test-suite, exact) and [float]
      (what [argparse] produces with [type=float], IEEE binary64).  Lists
      mixing both kinds are not modelled.
    - A raised exception is the [Raise] branch of [result]. *)

From Stdlib Require Import ZArith Floats String Ascii List Permutation.
From Stdlib Require Import DecimalString.
From stdpp Require Import gmap strings list.

Open Scope string_scope.

(** ** Python values *)

(** Exceptions the model can raise. *)
Inductive exn : Type :=
| ValueError (msg : string).

Inductive result (T : Type) : Type :=
| Ok (v : T)
| Raise (e : exn).
Arguments Ok {T} v.
Arguments Raise {T} e.

(** [bool(s)] for a [str]. *)
Definition str_truthy (s : string) : bool := negb (String.eqb s "").

(** [bool(o)] for an [Optional[str]]. *)
Definition truthy (o : option string) : bool :=
  match o with
  | None => false
  | Some s => str_truthy s
  end.

(** [a < b] and [a > b] on [str]. *)
Definition str_lt (a b : string) : bool := String.ltb a b.
Definition str_gt (a b : string) : bool := String.ltb b a.

(** [o == s] where [o] is an [Optional[str]] and [s] a [str]. *)
Definition opt_str_eq (o : option string) (s : string) : bool :=
  match o with
  | None => false
  | Some x => String.eqb x s
  end.

(** [o > s] and [o < s], only evaluated on a true (hence non-[None]) [o];
    on [None] Python would raise a [TypeError], which the guards of
    [is_active_in_month] make unreachable. *)
Definition opt_str_gt (o : option string) (s : string) : bool :=
  match o with
  | None => false
  | Some x => str_gt x s
  end.

Definition opt_str_lt (o : option string) (s : string) : bool :=
  match o with
  | None => false
  | Some x => str_lt x s
  end.

(** [[f x for x in xs if p x]], also as a generator expression. *)
Fixpoint comprehension {X Y : Type} (f : X -> Y) (p : X -> bool) (xs : list X) : list Y :=
  match xs with
  | [] => []
  | x :: rest =>
      if p x then f x :: comprehension f p rest else comprehension f p rest
  end.

(** The numeric protocol the summary relies on: the literal [0], [+], [-]
    and the builtin [sum] (with its default start [0]). *)
Class Number (A : Type) : Type := {
  zero : A;
  add : A -> A -> A;
  sub : A -> A -> A;
  builtin_sum : list A -> A
}.

(** Python [int]: unbounded, exact. *)
#[export] Instance int_Number : Number Z := {
  zero := 0%Z;
  add := Z.add;
  sub := Z.sub;
  builtin_sum := fun xs => fold_left Z.add xs 0%Z
}.

(** Python [float]: IEEE binary64.  [sum] adds from left to right, starting
    from [0] (the [int] start is converted to [0.0] by the first addition). *)
#[export] Instance float_Number : Number float := {
  zero := 0%float;
  add := PrimFloat.add;
  sub := PrimFloat.sub;
  builtin_sum := fun xs => fold_left PrimFloat.add xs 0%float
}.

(** The builtin [sum] belongs to the interpreter, not to the program:
    CPython 3.12 and later evaluate it over floats with Neumaier's
    compensated summation, a running total [f] and a running compensation
    [c], the latter added at the end when it is non-zero and finite.  The
    first item is added to the [int] start by a plain [+].  This second
    float instance is kept apart so that no statement about float totals
    rests on the choice of interpreter. *)
Definition is_finite (x : float) : bool :=
  match classify x with
  | PInf | NInf | NaN => false
  | _ => true
  end.

Fixpoint compensated_loop (f c : float) (xs : list float) : float :=
  match xs with
  | [] => if negb (PrimFloat.eqb c 0) && is_finite c then (f + c)%float else f
  | x :: rest =>
      let t := (f + x)%float in
      let c' :=
        if PrimFloat.leb (abs x) (abs f)
        then (c + ((f - t) + x))%float
        else (c + ((x - t) + f))%float in
      compensated_loop t c' rest
  end.

Definition compensated_sum (xs : list float) : float :=
  match xs with
  | [] => 0%float
  | x :: rest => compensated_loop (0 + x)%float 0%float rest
  end.

Definition float_Number_compensated : Number float := {|
  zero := 0%float;
  add := PrimFloat.add;
  sub := PrimFloat.sub;
  builtin_sum := compensated_sum
|}.

(** ** The transaction model *)

(** The dataclass [Transaction], fields in declaration order. *)
Record Transaction (A : Type) : Type := {
  description : string;
  amount : A;
  type : string;
  recurrence : string;
  category : string;
  month : option string;
  start_month : option string;
  end_month : option string;
  id : string
}.
Arguments description {A} _.
Arguments amount {A} _.
Arguments type {A} _.
Arguments recurrence {A} _.
Arguments category {A} _.
Arguments month {A} _.
Arguments start_month {A} _.
Arguments end_month {A} _.
Arguments id {A} _.

(** [self.id = v]. *)
Definition set_id {A : Type} (self : Transaction A) (v : string) : Transaction A :=
  {| description := description self; amount := amount self; type := type self;
     recurrence := recurrence self; category := category self;
     month := month self; start_month := start_month self;
     end_month := end_month self; id := v |}.

(** The two set literals of [__post_init__]. *)
Definition TYPES : gset string := {[ "inflow"; "outflow" ]}.
Definition RECURRENCES : gset string := {[ "one-time"; "recurring" ]}.

(** [Transaction.__post_init__].  [uuid4] stands for the value
    [str(uuid.uuid4())] takes when it is evaluated. *)
Definition post_init {A : Type} (uuid4 : string) (self0 : Transaction A)
  : result (Transaction A) :=
  let self := if negb (str_truthy (id self0)) then set_id self0 uuid4 else self0 in
  if negb (bool_decide (type self ∈ TYPES)) then
    Raise (ValueError "type must be 'inflow' or 'outflow'")
  else if negb (bool_decide (recurrence self ∈ RECURRENCES)) then
    Raise (ValueError "recurrence must be 'one-time' or 'recurring'")
  else if String.eqb (recurrence self) "one-time" && negb (truthy (month self)) then
    Raise (ValueError "one-time transactions require a month (YYYY-MM)")
  else if String.eqb (recurrence self) "recurring" && negb (truthy (start_month self)) then
    Raise (ValueError "recurring transactions require start_month (YYYY-MM)")
  else Ok self.

(** The generated [__init__]: store the arguments, then run [__post_init__].
    The defaults of the dataclass are [None] for the three months and the
    empty string for [id]. *)
Definition new_Transaction {A : Type} (uuid4 : string)
    (description_ : string) (amount_ : A) (type_ recurrence_ category_ : string)
    (month_ start_month_ end_month_ : option string) (id_ : string)
  : result (Transaction A) :=
  post_init uuid4
    {| description := description_; amount := amount_; type := type_;
       recurrence := recurrence_; category := category_; month := month_;
       start_month := start_month_; end_month := end_month_; id := id_ |}.

(** The object a successful construction yields: the arguments as given,
    with [uuid4] for an empty [id]. *)
Definition stored {A : Type} (uuid4 : string)
    (description_ : string) (amount_ : A) (type_ recurrence_ category_ : string)
    (month_ start_month_ end_month_ : option string) (id_ : string)
  : Transaction A :=
  {| description := description_; amount := amount_; type := type_;
     recurrence := recurrence_; category := category_; month := month_;
     start_month := start_month_; end_month := end_month_;
     id := if String.eqb id_ "" then uuid4 else id_ |}.

(** ** The summary engine *)

Definition is_active_in_month {A : Type} (txn : Transaction A) (target_month : string) : bool :=
  if String.eqb (recurrence txn) "one-time" then
    opt_str_eq (month txn) target_month
  else
    let start := start_month txn in
    let end_ := end_month txn in
    if truthy start && opt_str_gt start target_month then false
    else if truthy end_ && opt_str_lt end_ target_month then false
    else true.

(** The dict [calculate_summary] returns, one field per key. *)
Module Summary.
Record t (A : Type) : Type := {
  month : string;
  opening_balance : A;
  inflows : A;
  outflows : A;
  net : A;
  closing_balance : A;
  transactions : list (Transaction A)
}.
Arguments month {A} _.
Arguments opening_balance {A} _.
Arguments inflows {A} _.
Arguments outflows {A} _.
Arguments net {A} _.
Arguments closing_balance {A} _.
Arguments transactions {A} _.
End Summary.

(** [data.get("transactions", [])]. *)
Definition get_transactions {A : Type} (data : gmap string (list (Transaction A)))
  : list (Transaction A) :=
  default [] (data !! "transactions").

Definition calculate_summary {A : Type} `{Number A}
    (data : gmap string (list (Transaction A))) (target_month : string)
    (opening_balance : A) : Summary.t A :=
  let active_txns :=
    comprehension (fun txn => txn) (fun txn => is_active_in_month txn target_month)
      (get_transactions data) in
  let inflows :=
    builtin_sum (comprehension amount (fun txn => String.eqb (type txn) "inflow") active_txns) in
  let outflows :=
    builtin_sum (comprehension amount (fun txn => String.eqb (type txn) "outflow") active_txns) in
  let net := sub inflows outflows in
  let closing_balance := add opening_balance net in
  {| Summary.month := target_month;
     Summary.opening_balance := opening_balance;
     Summary.inflows := inflows;
     Summary.outflows := outflows;
     Summary.net := net;
     Summary.closing_balance := closing_balance;
     Summary.transactions := active_txns |}.

(** Two floats are the same amount when they are the same value (one NaN is
    any other) or compare equal with [==] (which identifies the two zeros). *)
Definition float_same (x y : float) : Prop :=
  x = y \/ PrimFloat.eqb x y = true.

(** ** Sample ledgers *)

Definition mkT {A : Type} (description_ : string) (amount_ : A)
    (type_ recurrence_ category_ : string)
    (month_ start_month_ end_month_ : option string) (id_ : string)
  : Transaction A :=
  {| description := description_; amount := amount_; type := type_;
     recurrence := recurrence_; category := category_; month := month_;
     start_month := start_month_; end_month := end_month_; id := id_ |}.

(** The ledger of the test-suite. *)
Definition salary : Transaction Z :=
  mkT "Salary" 3000%Z "inflow" "recurring" "income" None (Some "2024-01") None "1".
Definition rent : Transaction Z :=
  mkT "Rent" 1200%Z "outflow" "recurring" "housing" None (Some "2024-01") None "2".
Definition vacation : Transaction Z :=
  mkT "Vacation" 500%Z "outflow" "one-time" "fun" (Some "2024-02") None None "3".
Definition test_ledger : gmap string (list (Transaction Z)) :=
  {[ "transactions" := [salary; rent; vacation] ]}.
Definition test_ledger_rev : gmap string (list (Transaction Z)) :=
  {[ "transactions" := [vacation; rent; salary] ]}.

(** A recurring entry whose [end_month] is the empty string. *)
Definition open_ended : Transaction Z :=
  mkT "Gym" 30%Z "outflow" "recurring" "health" None (Some "2024-01") (Some "") "4".

(** Three float inflows of one month: 1e308, 1e308 and -1e308. *)
Definition huge : float := 0x1.1ccf385ebc8a0p+1023%float.
Definition bonus : Transaction float :=
  mkT "Bonus" huge "inflow" "one-time" "misc" (Some "2024-01") None None "a".
Definition refund : Transaction float :=
  mkT "Refund" huge "inflow" "one-time" "misc" (Some "2024-01") None None "b".
Definition reversal : Transaction float :=
  mkT "Reversal" (- huge)%float "inflow" "one-time" "misc" (Some "2024-01") None None "c".
Definition float_ledger : gmap string (list (Transaction float)) :=
  {[ "transactions" := [bonus; refund; reversal] ]}.
Definition float_ledger_perm : gmap string (list (Transaction float)) :=
  {[ "transactions" := [bonus; reversal; refund] ]}.

(** Three float inflows of 0.1, 0.2 and 0.3. *)
Definition dime : Transaction float :=
  mkT "Dime" 0x1.999999999999ap-4%float "inflow" "one-time" "misc" (Some "2024-01") None None "d".
Definition two_dimes : Transaction float :=
  mkT "Two dimes" 0x1.999999999999ap-3%float "inflow" "one-time" "misc" (Some "2024-01") None None "e".
Definition three_dimes : Transaction float :=
  mkT "Three dimes" 0x1.3333333333333p-2%float "inflow" "one-time" "misc" (Some "2024-01") None None "f".

(** ** The input boundary *)

(** The decimal digits of the pattern class [\d].  A character of a
    [string] is a code point below 256, and among those the class holds the
    ten ASCII digits only. *)
Definition is_digit (c : ascii) : bool :=
  (48 <=? N_of_ascii c)%N && (N_of_ascii c <=? 57)%N.

(** The month group [1[0-2]|0[1-9]|[1-9]] of the directive [%m], matched
    against all of the remaining text (text left over is refused as
    unconverted data). *)
Definition matches_month (s : string) : bool :=
  match s with
  | String a EmptyString => is_digit a && negb (Ascii.eqb a "0")
  | String a (String b EmptyString) =>
      (Ascii.eqb a "1" && (Ascii.eqb b "0" || Ascii.eqb b "1" || Ascii.eqb b "2"))
      || (Ascii.eqb a "0" && is_digit b && negb (Ascii.eqb b "0"))
  | _ => false
  end.

(** Whether [datetime.strptime(value, "%Y-%m")] returns: the text is four
    digits, a dash and a month, and the year is not 0 (the least year of a
    [datetime] is 1). *)
Definition strptime_Y_m (value : string) : bool :=
  match value with
  | String a (String b (String c (String d (String sep rest)))) =>
      is_digit a && is_digit b && is_digit c && is_digit d
      && negb (Ascii.eqb a "0" && Ascii.eqb b "0" && Ascii.eqb c "0" && Ascii.eqb d "0")
      && Ascii.eqb sep "-" && matches_month rest
  | _ => false
  end.

(** [parse_month]: the value itself when [strptime] accepts it, and [None]
    for the [ValueError] that [strptime] raises otherwise. *)
Definition parse_month (value : string) : option string :=
  if strptime_Y_m value then Some value else None.

(** The calendar position of a zero-padded month [YYYY-MM]: months counted
    from year 0.  It is what the order on month strings is meant to follow. *)
Definition digit_value (c : ascii) : option Z :=
  if is_digit c then Some (Z.of_N (N_of_ascii c) - 48)%Z else None.

Definition month_ordinal (s : string) : option Z :=
  match s with
  | String a (String b (String c (String d (String sep (String e (String f EmptyString)))))) =>
      match digit_value a, digit_value b, digit_value c, digit_value d,
            digit_value e, digit_value f with
      | Some a, Some b, Some c, Some d, Some e, Some f =>
          let year := (1000 * a + 100 * b + 10 * c + d)%Z in
          let mon := (10 * e + f)%Z in
          if Ascii.eqb sep "-" && (1 <=? mon)%Z && (mon <=? 12)%Z
          then Some (12 * year + mon)%Z
          else None
      | _, _, _, _, _, _ => None
      end
  | _ => None
  end.

(** ** The persistent store and the commands *)

(** What the commands act on: the file [DATA_FILE] ([None] while it does
    not exist, otherwise the ledger its JSON text denotes; [json.dumps] and
    [json.loads] are taken as inverse of each other on ledgers), the texts
    printed so far (one per call of [print]), and the identifiers
    [str(uuid.uuid4())] yields, with the number of those already drawn. *)
Record World (A : Type) : Type := {
  data_file : option (gmap string (list (Transaction A)));
  stdout : list string;
  uuids : nat -> string;
  uuids_drawn : nat
}.
Arguments data_file {A} _.
Arguments stdout {A} _.
Arguments uuids {A} _.
Arguments uuids_drawn {A} _.

(** A command: it reads and writes the world, and returns or raises. *)
Definition Cmd (A X : Type) : Type := World A -> result X * World A.

Definition ret {A X : Type} (x : X) : Cmd A X := fun w => (Ok x, w).

Definition bind {A X Y : Type} (c : Cmd A X) (k : X -> Cmd A Y) : Cmd A Y :=
  fun w =>
    match c w with
    | (Ok x, w') => k x w'
    | (Raise e, w') => (Raise e, w')
    end.

Notation "'do' x <- c ; k" := (bind c (fun x => k))
  (at level 10, x name, c at level 100, k at level 200).

(** [for x in xs: body x]. *)
Fixpoint for_each {A X : Type} (xs : list X) (body : X -> Cmd A unit) : Cmd A unit :=
  match xs with
  | [] => ret tt
  | x :: rest => do _ <- body x; for_each rest body
  end.

Definition print {A : Type} (text : string) : Cmd A unit :=
  fun w =>
    (Ok tt, {| data_file := data_file w; stdout := stdout w ++ [text];
               uuids := uuids w; uuids_drawn := uuids_drawn w |}).

Definition load_data {A : Type} : Cmd A (gmap string (list (Transaction A))) :=
  fun w =>
    match data_file w with
    | None => (Ok {[ "transactions" := [] ]}, w)
    | Some data => (Ok data, w)
    end.

Definition save_data {A : Type} (data : gmap string (list (Transaction A))) : Cmd A unit :=
  fun w =>
    (Ok tt, {| data_file := Some data; stdout := stdout w;
               uuids := uuids w; uuids_drawn := uuids_drawn w |}).

(** [DATA_FILE.unlink()]. *)
Definition unlink {A : Type} : Cmd A unit :=
  fun w =>
    (Ok tt, {| data_file := None; stdout := stdout w;
               uuids := uuids w; uuids_drawn := uuids_drawn w |}).

(** [Transaction(...)] as a command: an identifier is drawn when, and only
    when, [id] is empty. *)
Definition construct {A : Type}
    (description_ : string) (amount_ : A) (type_ recurrence_ category_ : string)
    (month_ start_month_ end_month_ : option string) (id_ : string)
  : Cmd A (Transaction A) :=
  fun w =>
    if negb (str_truthy id_) then
      (new_Transaction (uuids w (uuids_drawn w)) description_ amount_ type_
         recurrence_ category_ month_ start_month_ end_month_ id_,
       {| data_file := data_file w; stdout := stdout w;
          uuids := uuids w; uuids_drawn := S (uuids_drawn w) |})
    else
      (new_Transaction "" description_ amount_ type_ recurrence_ category_
         month_ start_month_ end_month_ id_, w).

(** The namespace [handle_add] receives. *)
Module AddArgs.
Record t (A : Type) : Type := {
  description : string;
  amount : A;
  type : string;
  category : string;
  month : option string;
  start_month : option string;
  end_month : option string;
  recurring : bool
}.
Arguments description {A} _.
Arguments amount {A} _.
Arguments type {A} _.
Arguments category {A} _.
Arguments month {A} _.
Arguments start_month {A} _.
Arguments end_month {A} _.
Arguments recurring {A} _.
End AddArgs.

(** [data.setdefault("transactions", []).append(txn)]. *)
Definition append_transaction {A : Type} (data : gmap string (list (Transaction A)))
    (txn : Transaction A) : gmap string (list (Transaction A)) :=
  <[ "transactions" := (default [] (data !! "transactions") ++ [txn])%list ]> data.

Definition handle_add {A : Type} (args : AddArgs.t A) : Cmd A unit :=
  do data <- load_data;
  do txn <- construct (AddArgs.description args) (AddArgs.amount args)
              (AddArgs.type args)
              (if AddArgs.recurring args then "recurring" else "one-time")
              (AddArgs.category args) (AddArgs.month args)
              (AddArgs.start_month args) (AddArgs.end_month args) "";
  do _ <- save_data (append_transaction data txn);
  print ("Added " ++ type txn ++ " '" ++ description txn ++ "' with id " ++ id txn).

Definition handle_reset {A : Type} : Cmd A unit :=
  fun w =>
    match data_file w with
    | Some _ => (do _ <- unlink; print "Cleared saved cash flow data.") w
    | None => print "No data file to clear." w
    end.

(** The format [:.2f] of an amount; how a number is written is left to the
    interpreter. *)
Class Format2f (A : Type) : Type := {
  format_2f : A -> string
}.

(** An [Optional[str]] inside an f-string. *)
Definition str_of (o : option string) : string :=
  match o with
  | None => "None"
  | Some s => s
  end.

(** The line [handle_list] prints for a transaction. *)
Definition list_line {A : Type} `{Format2f A} (txn : Transaction A) : string :=
  let scope :=
    if String.eqb (recurrence txn) "one-time" then str_of (month txn)
    else str_of (start_month txn) ++ "+" in
  let end_ := end_month txn in
  let end_text := if truthy end_ then " to " ++ str_of end_ else "" in
  "[" ++ id txn ++ "] " ++ description txn ++ " | " ++ type txn ++ " | $"
  ++ format_2f (amount txn) ++ " | " ++ recurrence txn
  ++ " (" ++ scope ++ end_text ++ ") | " ++ category txn.

(** [handle_list], on the [month] of its namespace. *)
Definition handle_list {A : Type} `{Format2f A} (month_ : option string) : Cmd A unit :=
  do data <- load_data;
  let txns := get_transactions data in
  let txns :=
    if truthy month_
    then comprehension (fun txn => txn)
           (fun txn => is_active_in_month txn (str_of month_)) txns
    else txns in
  match txns with
  | [] => print "No transactions found."
  | _ => for_each txns (fun txn => print (list_line txn))
  end.

(** The line [handle_summary] prints for a contributing transaction. *)
Definition summary_line {A : Type} `{Format2f A} (txn : Transaction A) : string :=
  let source :=
    if String.eqb (recurrence txn) "one-time" then month txn else start_month txn in
  "- " ++ description txn ++ " ($" ++ format_2f (amount txn) ++ ", " ++ type txn
  ++ ", " ++ recurrence txn ++ ", from " ++ str_of source ++ ")".

(** [handle_summary], on the [month] and [opening_balance] of its namespace. *)
Definition handle_summary {A : Type} `{Number A} `{Format2f A}
    (month_ : string) (opening_balance_ : A) : Cmd A unit :=
  do data <- load_data;
  let summary := calculate_summary data month_ opening_balance_ in
  do _ <- print ("Cash flow summary for " ++ Summary.month summary);
  do _ <- print ("Opening balance: $" ++ format_2f (Summary.opening_balance summary));
  do _ <- print ("Total inflows:  $" ++ format_2f (Summary.inflows summary));
  do _ <- print ("Total outflows: $" ++ format_2f (Summary.outflows summary));
  do _ <- print ("Net income:      $" ++ format_2f (Summary.net summary));
  do _ <- print ("Closing balance: $" ++ format_2f (Summary.closing_balance summary));
  match Summary.transactions summary with
  | [] => ret tt
  | _ =>
      do _ <- print (String "010" "Transactions contributing to this month:");
      for_each (Summary.transactions summary) (fun txn => print (summary_line txn))
  end.

(** The ledger a command reads in a world: what [load_data] returns. *)
Definition current_ledger {A : Type} (w : World A) : gmap string (list (Transaction A)) :=
  match data_file w with
  | None => {[ "transactions" := [] ]}
  | Some data => data
  end.

(** One invocation of the program, by sub-command, and a session of
    invocations against the same file.  An invocation that raises ends, and
    the next one finds the world as it was left. *)
Inductive command (A : Type) : Type :=
| Add (args : AddArgs.t A)
| List_ (month_ : option string)
| Summarize (month_ : string) (opening_balance_ : A)
| Reset.
Arguments Add {A} args.
Arguments List_ {A} month_.
Arguments Summarize {A} month_ opening_balance_.
Arguments Reset {A}.

Definition invoke {A : Type} `{Number A} `{Format2f A} (c : command A) : Cmd A unit :=
  match c with
  | Add args => handle_add args
  | List_ month_ => handle_list month_
  | Summarize month_ opening_balance_ => handle_summary month_ opening_balance_
  | Reset => handle_reset
  end.

Fixpoint session {A : Type} `{Number A} `{Format2f A} (cs : list (command A))
    (w : World A) : World A :=
  match cs with
  | [] => w
  | c :: rest => session rest (snd (invoke c w))
  end.

(** A transaction that satisfies the four checks of [__post_init__]. *)
Definition validated {A : Type} (t : Transaction A) : Prop :=
  (type t = "inflow" \/ type t = "outflow") /\
  ((recurrence t = "one-time" /\ exists s, month t = Some s /\ s <> "") \/
   (recurrence t = "recurring" /\ exists s, start_month t = Some s /\ s <> "")).

(** A world in which the data file does not exist. *)
Definition fresh_world {A : Type} (ids : nat -> string) : World A :=
  {| data_file := None; stdout := []; uuids := ids; uuids_drawn := 0 |}.

(** Sample input of [handle_add], and an identifier source. *)
Definition add_salary : AddArgs.t Z :=
  {| AddArgs.description := "Salary"; AddArgs.amount := 3000%Z;
     AddArgs.type := "inflow"; AddArgs.category := "income";
     AddArgs.month := None; AddArgs.start_month := Some "2024-01";
     AddArgs.end_month := None; AddArgs.recurring := true |}.
Definition add_without_month : AddArgs.t Z :=
  {| AddArgs.description := "Vacation"; AddArgs.amount := 500%Z;
     AddArgs.type := "outflow"; AddArgs.category := "fun";
     AddArgs.month := None; AddArgs.start_month := None;
     AddArgs.end_month := None; AddArgs.recurring := false |}.
Fixpoint tally_ids (n : nat) : string :=
  match n with
  | O => "#"
  | S k => String "i" (tally_ids k)
  end.

(** A world after some more lines were printed. *)
Definition printed {A : Type} (w : World A) (lines : list string) : World A :=
  {| data_file := data_file w; stdout := (stdout w ++ lines)%list;
     uuids := uuids w; uuids_drawn := uuids_drawn w |}.

(** The transaction [handle_add] builds from its namespace in a world. *)
Definition entered {A : Type} (args : AddArgs.t A) (w : World A) : Transaction A :=
  stored (uuids w (uuids_drawn w)) (AddArgs.description args) (AddArgs.amount args)
    (AddArgs.type args) (if AddArgs.recurring args then "recurring" else "one-time")
    (AddArgs.category args) (AddArgs.month args) (AddArgs.start_month args)
    (AddArgs.end_month args) "".

(** What the commands maintain about the stored transactions: each one is
    validated, and their identifiers are distinct draws of the source. *)
Definition store_invariant {A : Type} (w : World A) : Prop :=
  Forall validated (get_transactions (current_ledger w)) /\
  exists draws : list nat,
    map id (get_transactions (current_ledger w)) = map (uuids w) draws /\
    NoDup draws /\
    Forall (fun k => k < uuids_drawn w) draws.

(** How [:.2f] writes an int that a float holds exactly (up to 2^53 in
    magnitude): its decimal digits, then two zero decimals.  Used for the
    sample sessions only. *)
Definition small_int_Format2f : Format2f Z :=
  {| format_2f := fun z => NilZero.string_of_int (Z.to_int z) ++ ".00" |}.

(** A sample session: two entries, one refused, a listing and a summary. *)
Definition add_rent : AddArgs.t Z :=
  {| AddArgs.description := "Rent"; AddArgs.amount := 1200%Z;
     AddArgs.type := "outflow"; AddArgs.category := "housing";
     AddArgs.month := None; AddArgs.start_month := Some "2024-01";
     AddArgs.end_month := None; AddArgs.recurring := true |}.
Definition sample_session : list (command Z) :=
  [Add add_salary; Add add_without_month; Add add_rent;
   List_ (Some "2024-02"); Summarize "2024-02" 200%Z].

(** * Properties *)

(** ** The order on strings *)

Section StringOrder.

Lemma str_gt_leb (a b : string) : str_gt a b = negb (String.leb a b).
Proof.
  unfold str_gt, String.ltb, String.leb.
  rewrite (String.compare_antisym a b).
  destruct (String.compare b a); reflexivity.
Qed.

Lemma str_lt_leb (a b : string) : str_lt a b = negb (String.leb b a).
Proof. exact (str_gt_leb b a). Qed.

Lemma leb_empty_l (s : string) : String.leb "" s = true.
Proof. destruct s; reflexivity. Qed.

Lemma ltb_empty_r (s : string) : String.ltb s "" = false.
Proof. destruct s; reflexivity. Qed.

Lemma ascii_compare_lt_trans (x y z : ascii) :
  Ascii.compare x y = Lt -> Ascii.compare y z = Lt -> Ascii.compare x z = Lt.
Proof.
  unfold Ascii.compare. rewrite !N.compare_lt_iff. apply N.lt_trans.
Qed.

(** [a < b] and [b <= c] give [a < c]. *)
Lemma compare_lt_le_trans (a b c : string) :
  String.compare a b = Lt -> String.compare b c <> Gt -> String.compare a c = Lt.
Proof.
  revert b c.
  induction a as [|x a IH]; intros [|y b] [|z c]; simpl; try congruence.
  destruct (Ascii.compare x y) eqn:Hxy; try discriminate.
  - apply Ascii.compare_eq_iff in Hxy. subst y.
    destruct (Ascii.compare x z); try congruence. apply IH.
  - intros _.
    destruct (Ascii.compare y z) eqn:Hyz; try congruence.
    + apply Ascii.compare_eq_iff in Hyz. subst z. now rewrite Hxy.
    + now rewrite (ascii_compare_lt_trans _ _ _ Hxy Hyz).
Qed.

Lemma str_truthy_true (s : string) : str_truthy s = true <-> s <> "".
Proof.
  unfold str_truthy. destruct (String.eqb_spec s ""); simpl; split;
    congruence.
Qed.

End StringOrder.

(** ** Activity of a transaction in a month *)

Section Activity.
Context {A : Type}.
Implicit Types (txn : Transaction A) (m : string).

Lemma is_active_one_time txn m :
  recurrence txn = "one-time" ->
  is_active_in_month txn m = opt_str_eq (month txn) m.
Proof. intros H. unfold is_active_in_month. now rewrite H. Qed.

(** Any recurrence other than one-time takes the range branch: neither
    guard may fire. *)
Lemma is_active_range txn m :
  recurrence txn <> "one-time" ->
  is_active_in_month txn m =
    negb (truthy (start_month txn) && opt_str_gt (start_month txn) m)
    && negb (truthy (end_month txn) && opt_str_lt (end_month txn) m).
Proof.
  intros H. unfold is_active_in_month.
  destruct (String.eqb_spec (recurrence txn) "one-time") as [E|_]; [easy|].
  destruct (truthy (start_month txn) && opt_str_gt (start_month txn) m); [easy|].
  now destruct (truthy (end_month txn) && opt_str_lt (end_month txn) m).
Qed.

(** The guard on [start]: it lets [None] and every [s <= m] through; the
    empty string is below every month, so its falsity changes nothing. *)
Lemma start_guard (o : option string) m :
  truthy o && opt_str_gt o m = false <->
  match o with
  | None => True
  | Some s => String.leb s m = true
  end.
Proof.
  destruct o as [s|]; simpl; [|easy].
  rewrite str_gt_leb. unfold str_truthy.
  destruct (String.eqb_spec s "") as [->|_]; simpl.
  - now rewrite leb_empty_l.
  - destruct (String.leb s m); simpl; split; congruence.
Qed.

(** The guard on [end]: it lets [None], the empty string and every
    [e >= m] through. *)
Lemma end_guard (o : option string) m :
  truthy o && opt_str_lt o m = false <->
  match o with
  | None => True
  | Some e => e = "" \/ String.leb m e = true
  end.
Proof.
  destruct o as [e|]; simpl; [|easy].
  rewrite str_lt_leb. unfold str_truthy.
  destruct (String.eqb_spec e "") as [->|Hne]; simpl.
  - split; auto.
  - destruct (String.leb m e); simpl; split; try congruence; auto.
    intros [?|?]; congruence.
Qed.

End Activity.

(** C2 as stated fails on an [end_month] that is the empty string: the code
    skips the upper bound for it, where the stated condition compares
    ["2024-02" <= ""]. *)
Lemma C2_empty_end_month_counterexample :
  recurrence open_ended = "recurring" /\
  start_month open_ended = Some "2024-01" /\
  end_month open_ended = Some "" /\
  is_active_in_month open_ended "2024-02" = true /\
  ~ (is_active_in_month open_ended "2024-02" = true <->
     match start_month open_ended with
     | None => True
     | Some s => String.leb s "2024-02" = true
     end /\
     match end_month open_ended with
     | None => True
     | Some e => String.leb "2024-02" e = true
     end).
Proof.
  repeat split; try reflexivity.
  intros [Hactive _]. specialize (Hactive eq_refl).
  destruct Hactive as [_ Hend]. vm_compute in Hend. discriminate.
Qed.

(** C2 (amended): a recurring transaction is active in month [m] iff its
    [start_month] is absent or at most [m], and its [end_month] is absent,
    empty, or at least [m]; the order is the lexicographic one. *)
Theorem C2_recurring_active_iff {A : Type} (txn : Transaction A) (m : string) :
  recurrence txn = "recurring" ->
  is_active_in_month txn m = true <->
  match start_month txn with
  | None => True
  | Some s => String.leb s m = true
  end /\
  match end_month txn with
  | None => True
  | Some e => e = "" \/ String.leb m e = true
  end.
Proof.
  intros Hrec.
  rewrite is_active_range by (rewrite Hrec; discriminate).
  rewrite <- start_guard, <- end_guard.
  destruct (truthy (start_month txn) && opt_str_gt (start_month txn) m);
    destruct (truthy (end_month txn) && opt_str_lt (end_month txn) m);
    simpl; intuition congruence.
Qed.

Lemma C2_recurring_active_iff_witness :
  is_active_in_month open_ended "2024-02" = true <->
  match start_month open_ended with
  | None => True
  | Some s => String.leb s "2024-02" = true
  end /\
  match end_month open_ended with
  | None => True
  | Some e => e = "" \/ String.leb "2024-02" e = true
  end.
Proof. apply (C2_recurring_active_iff open_ended "2024-02"). reflexivity. Defined.

(** C3: a one-time transaction is active in month [m] iff its [month] is
    exactly the string [m]. *)
Theorem C3_one_time_active_iff {A : Type} (txn : Transaction A) (m : string) :
  recurrence txn = "one-time" ->
  is_active_in_month txn m = true <-> month txn = Some m.
Proof.
  intros Hrec. rewrite is_active_one_time by assumption.
  destruct (month txn) as [x|]; simpl.
  - rewrite String.eqb_eq. split; congruence.
  - split; discriminate.
Qed.

Lemma C3_one_time_active_iff_witness :
  is_active_in_month vacation "2024-02" = true <-> month vacation = Some "2024-02".
Proof. apply (C3_one_time_active_iff vacation "2024-02"). reflexivity. Defined.

(** No prefix matching: a month that only starts like the target is not it. *)
Example one_time_no_prefix_match :
  is_active_in_month vacation "2024-0" = false /\
  is_active_in_month vacation "2024-021" = false /\
  is_active_in_month vacation "2024-02" = true.
Proof. repeat split. Qed.

(** C6 as stated fails on an empty [end_month]: it is below every
    [start_month], yet the code ignores it. *)
Lemma C6_empty_end_month_counterexample :
  recurrence open_ended = "recurring" /\
  (exists s e, start_month open_ended = Some s /\ end_month open_ended = Some e /\
               String.ltb e s = true) /\
  is_active_in_month open_ended "2024-02" = true.
Proof.
  split; [reflexivity|]. split; [|reflexivity].
  exists "2024-01", "". repeat split.
Qed.

(** C6 (amended): a recurring transaction whose [end_month] is present, not
    empty, and below its [start_month] is active in no month. *)
Theorem C6_inverted_range_never_active {A : Type} (txn : Transaction A) (s e m : string) :
  recurrence txn = "recurring" ->
  start_month txn = Some s ->
  end_month txn = Some e ->
  e <> "" ->
  String.ltb e s = true ->
  is_active_in_month txn m = false.
Proof.
  intros Hrec Hs He Hne Hlt.
  rewrite is_active_range by (rewrite Hrec; discriminate).
  rewrite Hs, He. simpl.
  assert (Hsne : str_truthy s = true).
  { apply str_truthy_true. intros ->. now rewrite ltb_empty_r in Hlt. }
  apply str_truthy_true in Hne. rewrite Hsne, Hne. simpl.
  unfold str_gt, str_lt, String.ltb in *.
  destruct (String.compare m s) eqn:Hms; simpl; try reflexivity.
  - apply String.compare_eq_iff in Hms. subst m.
    destruct (String.compare e s); now try discriminate.
  - rewrite (compare_lt_le_trans e s m); [reflexivity| |].
    + destruct (String.compare e s); now try discriminate.
    + rewrite String.compare_antisym, Hms. discriminate.
Qed.

Lemma C6_inverted_range_never_active_witness :
  is_active_in_month
    (mkT "Lease" 900%Z "outflow" "recurring" "housing" None
       (Some "2024-06") (Some "2024-03") "5") "2024-04" = false.
Proof.
  apply (C6_inverted_range_never_active _ "2024-06" "2024-03" "2024-04");
    try reflexivity.
  discriminate.
Defined.

(** ** Construction of a transaction *)

Section Construction.
Context {A : Type}.
Variables (uuid4 d : string) (a : A) (ty rc cat : string).
Variables (mo st en : option string) (i : string).

Lemma type_in_TYPES (x : string) : x ∈ TYPES <-> x = "inflow" \/ x = "outflow".
Proof. unfold TYPES. set_solver. Qed.

Lemma recurrence_in_RECURRENCES (x : string) :
  x ∈ RECURRENCES <-> x = "one-time" \/ x = "recurring".
Proof. unfold RECURRENCES. set_solver. Qed.

(** A presence check [not o] succeeds on [None] and on the empty string. *)
Lemma truthy_false (o : option string) :
  truthy o = false <-> o = None \/ o = Some "".
Proof.
  destruct o as [s|]; simpl.
  - unfold str_truthy.
    destruct (String.eqb_spec s "") as [->|Hne]; simpl; split; intros H;
      try congruence; auto.
    destruct H as [H|H]; congruence.
  - split; auto.
Qed.

Lemma truthy_true (o : option string) :
  truthy o = true <-> exists s, o = Some s /\ s <> "".
Proof.
  destruct o as [s|]; simpl.
  - rewrite str_truthy_true. split.
    + intros H. now exists s.
    + intros (s' & [= ->] & H). exact H.
  - split; [discriminate|]. intros (s' & H & _). discriminate.
Qed.

(** The checks of [__post_init__] read the arguments as given: the
    defaulting of [id] touches no field they look at. *)
Lemma new_Transaction_checks :
  new_Transaction uuid4 d a ty rc cat mo st en i =
    if negb (bool_decide (ty ∈ TYPES)) then
      Raise (ValueError "type must be 'inflow' or 'outflow'")
    else if negb (bool_decide (rc ∈ RECURRENCES)) then
      Raise (ValueError "recurrence must be 'one-time' or 'recurring'")
    else if String.eqb rc "one-time" && negb (truthy mo) then
      Raise (ValueError "one-time transactions require a month (YYYY-MM)")
    else if String.eqb rc "recurring" && negb (truthy st) then
      Raise (ValueError "recurring transactions require start_month (YYYY-MM)")
    else Ok (stored uuid4 d a ty rc cat mo st en i).
Proof.
  unfold new_Transaction, post_init, stored, str_truthy. simpl.
  destruct (String.eqb i ""); reflexivity.
Qed.

Lemma new_bad_type :
  ty ∉ TYPES ->
  new_Transaction uuid4 d a ty rc cat mo st en i =
    Raise (ValueError "type must be 'inflow' or 'outflow'").
Proof.
  intros H. rewrite new_Transaction_checks.
  now rewrite bool_decide_eq_false_2.
Qed.

Lemma new_bad_recurrence :
  ty ∈ TYPES -> rc ∉ RECURRENCES ->
  new_Transaction uuid4 d a ty rc cat mo st en i =
    Raise (ValueError "recurrence must be 'one-time' or 'recurring'").
Proof.
  intros H1 H2. rewrite new_Transaction_checks.
  rewrite bool_decide_eq_true_2 by assumption.
  now rewrite bool_decide_eq_false_2.
Qed.

Lemma new_one_time_without_month :
  ty ∈ TYPES -> rc = "one-time" -> truthy mo = false ->
  new_Transaction uuid4 d a ty rc cat mo st en i =
    Raise (ValueError "one-time transactions require a month (YYYY-MM)").
Proof.
  intros H1 H2 H3. rewrite new_Transaction_checks, H2, H3.
  now rewrite bool_decide_eq_true_2.
Qed.

Lemma new_recurring_without_start :
  ty ∈ TYPES -> rc = "recurring" -> truthy st = false ->
  new_Transaction uuid4 d a ty rc cat mo st en i =
    Raise (ValueError "recurring transactions require start_month (YYYY-MM)").
Proof.
  intros H1 H2 H3. rewrite new_Transaction_checks, H2, H3.
  now rewrite bool_decide_eq_true_2.
Qed.

Lemma new_valid :
  ty ∈ TYPES ->
  (rc = "one-time" /\ truthy mo = true) \/ (rc = "recurring" /\ truthy st = true) ->
  new_Transaction uuid4 d a ty rc cat mo st en i =
    Ok (stored uuid4 d a ty rc cat mo st en i).
Proof.
  intros H1 [[H2 H]|[H2 H]]; rewrite new_Transaction_checks, H2, H;
    now rewrite bool_decide_eq_true_2.
Qed.

End Construction.

(** C4 as stated fails on a month that is supplied but empty: the type and
    the recurrence are legal and a month is given, so none of the four rules
    as worded is violated, yet the construction raises. *)
Lemma C4_empty_month_counterexample :
  new_Transaction (A:=Z) "9f1c" "Coffee" 3%Z "outflow" "one-time" "food"
    (Some "") None None ""
  = Raise (ValueError "one-time transactions require a month (YYYY-MM)") /\
  ~ (("outflow" <> "inflow" /\ "outflow" <> "outflow") \/
     ("one-time" <> "one-time" /\ "one-time" <> "recurring") \/
     ("one-time" = "one-time" /\ Some "" = @None string) \/
     ("one-time" = "recurring" /\ @None string = None)).
Proof.
  split; [reflexivity|].
  intros [[_ H]|[[H _]|[[_ H]|[H _]]]]; congruence.
Qed.

(** C4 (amended): construction raises a [ValueError] iff the type is not
    inflow or outflow, or the recurrence is not one-time or recurring, or
    the recurrence is one-time and the month is absent or empty, or the
    recurrence is recurring and the start month is absent or empty.
    Otherwise it returns the transaction holding the arguments.  In
    particular the type transfer and a one-time transaction without month
    are refused, each with the message of its rule. *)
Theorem C4_construction_fails_iff {A : Type} (uuid4 d : string) (a : A)
    (ty rc cat : string) (mo st en : option string) (i : string) :
  let r := new_Transaction uuid4 d a ty rc cat mo st en i in
  let violated :=
    (ty <> "inflow" /\ ty <> "outflow") \/
    (rc <> "one-time" /\ rc <> "recurring") \/
    (rc = "one-time" /\ (mo = None \/ mo = Some "")) \/
    (rc = "recurring" /\ (st = None \/ st = Some "")) in
  ((exists msg, r = Raise (ValueError msg)) <-> violated) /\
  (~ violated ->
   r = Ok {| description := d; amount := a; type := ty; recurrence := rc;
             category := cat; month := mo; start_month := st; end_month := en;
             id := if String.eqb i "" then uuid4 else i |}) /\
  (ty = "transfer" ->
   r = Raise (ValueError "type must be 'inflow' or 'outflow'")) /\
  (ty = "inflow" \/ ty = "outflow" -> rc = "one-time" -> mo = None ->
   r = Raise (ValueError "one-time transactions require a month (YYYY-MM)")).
Proof.
  intros r violated.
  pose proof (type_in_TYPES ty) as Hty.
  pose proof (recurrence_in_RECURRENCES rc) as Hrc.
  pose proof (truthy_false mo) as Hmo.
  pose proof (truthy_false st) as Hst.
  assert (Hdec : (violated /\ exists msg, r = Raise (ValueError msg)) \/
                 (~ violated /\ r = Ok (stored uuid4 d a ty rc cat mo st en i))).
  { subst r violated.
    destruct (decide (ty ∈ TYPES)) as [T|T].
    2:{ left. split; [left; tauto|]. eexists. now apply new_bad_type. }
    destruct (decide (rc ∈ RECURRENCES)) as [R|R].
    2:{ left. split; [right; left; tauto|]. eexists. now apply new_bad_recurrence. }
    destruct (truthy mo) eqn:Tm, (truthy st) eqn:Ts, (proj1 Hrc R) as [E|E].
    all: first
      [ right; split;
        [ intros [V|[V|[V|V]]]; [tauto|tauto| |];
          destruct V as [V1 V2]; first [apply Hmo in V2|apply Hst in V2];
          congruence
        | apply new_valid; auto ]
      | left; split;
        [ first [right; right; left; tauto | right; right; right; tauto]
        | eexists;
          first [now apply new_one_time_without_month
                |now apply new_recurring_without_start] ] ]. }
  repeat split.
  - intros [msg Hr]. destruct Hdec as [[V _]|[_ Hok]]; [exact V|congruence].
  - intros V. destruct Hdec as [[_ Hr]|[NV _]]; [exact Hr|contradiction].
  - intros NV. destruct Hdec as [[V _]|[_ Hok]]; [contradiction|exact Hok].
  - intros ->. apply new_bad_type. rewrite type_in_TYPES.
    intros [?|?]; discriminate.
  - intros T E M. apply new_one_time_without_month; [tauto|exact E|].
    now rewrite M.
Qed.

(** C9: whatever the amount, in particular a negative one, an input that
    passes the four checks is accepted and the stored amount is the one
    supplied. *)
Theorem C9_amount_not_checked {A : Type} (uuid4 d : string) (a : A)
    (ty rc cat : string) (mo st en : option string) (i : string) :
  ty = "inflow" \/ ty = "outflow" ->
  (rc = "one-time" /\ exists s, mo = Some s /\ s <> "") \/
  (rc = "recurring" /\ exists s, st = Some s /\ s <> "") ->
  exists t, new_Transaction uuid4 d a ty rc cat mo st en i = Ok t /\ amount t = a.
Proof.
  intros T V. exists (stored uuid4 d a ty rc cat mo st en i).
  split; [|reflexivity].
  apply new_valid; [now apply type_in_TYPES|].
  rewrite !truthy_true. exact V.
Qed.

Lemma C9_amount_not_checked_witness :
  exists t,
    new_Transaction "9f1c" "Chargeback" (-250)%Z "inflow" "one-time" "misc"
      (Some "2024-03") None None "" = Ok t /\
    amount t = (-250)%Z.
Proof.
  apply (C9_amount_not_checked "9f1c" "Chargeback" (-250)%Z "inflow" "one-time"
           "misc" (Some "2024-03") None None "").
  - left. reflexivity.
  - left. split; [reflexivity|]. exists "2024-03". split; [reflexivity|discriminate].
Defined.

(** The same holds for a negative float. *)
Example negative_float_accepted :
  exists t,
    new_Transaction "9f1c" "Chargeback" (-0x1.9p+4)%float "outflow" "recurring"
      "misc" None (Some "2024-03") None "k" = Ok t /\
    amount t = (-0x1.9p+4)%float /\ id t = "k".
Proof. eexists. repeat split. Qed.

(** C10: the presence checks do not tell the empty string from an absent
    value: with an empty month a one-time construction raises exactly what
    it raises without month, and with an empty start month a recurring one
    raises exactly what it raises without start month; for a legal type the
    error is the one of the presence rule. *)
Theorem C10_empty_string_counts_as_absent {A : Type} (uuid4 d : string) (a : A)
    (ty cat : string) (mo st en : option string) (i : string) :
  (new_Transaction uuid4 d a ty "one-time" cat (Some "") st en i
   = new_Transaction uuid4 d a ty "one-time" cat None st en i /\
   (exists msg, new_Transaction uuid4 d a ty "one-time" cat (Some "") st en i
                = Raise (ValueError msg)) /\
   (ty = "inflow" \/ ty = "outflow" ->
    new_Transaction uuid4 d a ty "one-time" cat (Some "") st en i
    = Raise (ValueError "one-time transactions require a month (YYYY-MM)"))) /\
  (new_Transaction uuid4 d a ty "recurring" cat mo (Some "") en i
   = new_Transaction uuid4 d a ty "recurring" cat mo None en i /\
   (exists msg, new_Transaction uuid4 d a ty "recurring" cat mo (Some "") en i
                = Raise (ValueError msg)) /\
   (ty = "inflow" \/ ty = "outflow" ->
    new_Transaction uuid4 d a ty "recurring" cat mo (Some "") en i
    = Raise (ValueError "recurring transactions require start_month (YYYY-MM)"))).
Proof.
  rewrite !new_Transaction_checks. simpl.
  destruct (bool_decide (ty ∈ TYPES)) eqn:T; simpl.
  - repeat split; eauto.
  - apply bool_decide_eq_false in T. rewrite type_in_TYPES in T.
    repeat split; eauto; tauto.
Qed.

(** ** The monthly summary *)

Section Comprehensions.
Context {X Y : Type}.
Implicit Types (f : X -> Y) (p : X -> bool).

(** A comprehension keeps the selected items, in order, and maps them. *)
Lemma comprehension_map_filter f p (xs : list X) :
  comprehension f p xs = map f (List.filter p xs).
Proof.
  induction xs as [|x xs IH]; simpl; [reflexivity|].
  destruct (p x); simpl; now rewrite IH.
Qed.

Lemma comprehension_none f p (xs : list X) :
  Forall (fun x => p x = false) xs -> comprehension f p xs = [].
Proof.
  induction 1 as [|x xs Hx _ IH]; simpl; [reflexivity|].
  now rewrite Hx.
Qed.

Lemma comprehension_permutation f p (xs ys : list X) :
  Permutation xs ys -> Permutation (comprehension f p xs) (comprehension f p ys).
Proof.
  induction 1 as [|x xs ys _ IH|x y xs|xs ys zs _ IH1 _ IH2]; simpl.
  - constructor.
  - destruct (p x); [now constructor|exact IH].
  - destruct (p x), (p y); try reflexivity. apply perm_swap.
  - now transitivity (comprehension f p ys).
Qed.

End Comprehensions.

(** The [sum] of Python ints does not depend on the order of the items. *)
Lemma int_sum_permutation (xs ys : list Z) :
  Permutation xs ys -> forall acc : Z, fold_left Z.add xs acc = fold_left Z.add ys acc.
Proof.
  induction 1 as [|x xs ys _ IH|x y xs|xs ys zs _ IH1 _ IH2]; intros acc; simpl.
  - reflexivity.
  - apply IH.
  - f_equal. lia.
  - now rewrite IH1.
Qed.

(** Adding [0] to a float gives the same amount back: the same value, except
    that the negative zero becomes the positive one. *)
Lemma float_add_zero_same (x : float) : float_same (x + 0)%float x.
Proof.
  unfold float_same.
  assert (Hz : Prim2SF 0%float = S754_zero false) by reflexivity.
  destruct (Prim2SF x) as [[|]| | |] eqn:E.
  - right.
    assert (x = (-0)%float) as -> by (apply Prim2SF_inj; now rewrite E).
    reflexivity.
  - left. apply Prim2SF_inj. now rewrite add_spec, E, Hz.
  - left. apply Prim2SF_inj. now rewrite add_spec, E, Hz.
  - left. apply Prim2SF_inj. now rewrite add_spec, E, Hz.
  - left. apply Prim2SF_inj. now rewrite add_spec, E, Hz.
Qed.

Section Summaries.
Context {A : Type} `{Number A}.
Implicit Types (data : gmap string (list (Transaction A))) (m : string) (o : A).

(** With no active transaction both sums are taken over nothing. *)
Lemma summary_no_active data m o :
  Forall (fun t => is_active_in_month t m = false) (get_transactions data) ->
  let s := calculate_summary data m o in
  Summary.transactions s = [] /\
  Summary.inflows s = builtin_sum [] /\
  Summary.outflows s = builtin_sum [] /\
  Summary.net s = sub (builtin_sum []) (builtin_sum []) /\
  Summary.closing_balance s = add o (sub (builtin_sum []) (builtin_sum [])).
Proof.
  intros Hnone. unfold calculate_summary. simpl.
  rewrite (comprehension_none _ _ _ Hnone). simpl. repeat split.
Qed.

(** Whatever the numbers, a permuted ledger contributes the same
    transactions, permuted. *)
Lemma summary_transactions_permutation data data' m o :
  Permutation (get_transactions data) (get_transactions data') ->
  Permutation (Summary.transactions (calculate_summary data m o))
              (Summary.transactions (calculate_summary data' m o)).
Proof. intros HP. simpl. now apply comprehension_permutation. Qed.

End Summaries.

(** C1: the summary echoes the month and the opening balance, lists the
    transactions of the ledger that are active in the month, in ledger
    order, totals the amounts of the active inflows and of the active
    outflows, and has net = inflows - outflows and closing balance =
    opening balance + net. *)
Theorem C1_summary_fields {A : Type} `{Number A}
    (data : gmap string (list (Transaction A))) (m : string) (o : A) :
  let s := calculate_summary data m o in
  let active := List.filter (fun t => is_active_in_month t m) (get_transactions data) in
  Summary.month s = m /\
  Summary.opening_balance s = o /\
  Summary.transactions s = active /\
  Summary.inflows s =
    builtin_sum (map amount (List.filter (fun t => String.eqb (type t) "inflow") active)) /\
  Summary.outflows s =
    builtin_sum (map amount (List.filter (fun t => String.eqb (type t) "outflow") active)) /\
  Summary.net s = sub (Summary.inflows s) (Summary.outflows s) /\
  Summary.closing_balance s = add o (Summary.net s).
Proof.
  intros s active. subst s active. unfold calculate_summary. simpl.
  rewrite !comprehension_map_filter, map_id. repeat split.
Qed.

(** The scenario of the test-suite. *)
Example summary_test_ledger :
  let s := calculate_summary test_ledger "2024-02" 200%Z in
  Summary.month s = "2024-02" /\ Summary.inflows s = 3000%Z /\
  Summary.outflows s = 1700%Z /\ Summary.net s = 1300%Z /\
  Summary.closing_balance s = 1500%Z /\
  Summary.transactions s = [salary; rent; vacation].
Proof. repeat split. Qed.

(** C5: when no transaction of the ledger is active in the month (so for
    the empty ledger), inflows, outflows and net are 0 and the closing
    balance is the opening balance; this holds for int amounts and for
    float amounts, under either evaluation of [sum]. *)
Theorem C5_no_active_transactions (m : string) :
  (forall (data : gmap string (list (Transaction Z))) (o : Z),
     Forall (fun t => is_active_in_month t m = false) (get_transactions data) ->
     let s := calculate_summary data m o in
     Summary.inflows s = 0%Z /\ Summary.outflows s = 0%Z /\
     Summary.net s = 0%Z /\ Summary.closing_balance s = o) /\
  (forall (data : gmap string (list (Transaction float))) (o : float),
     Forall (fun t => is_active_in_month t m = false) (get_transactions data) ->
     let s := calculate_summary data m o in
     Summary.inflows s = 0%float /\ Summary.outflows s = 0%float /\
     Summary.net s = 0%float /\ float_same (Summary.closing_balance s) o) /\
  (forall (data : gmap string (list (Transaction float))) (o : float),
     Forall (fun t => is_active_in_month t m = false) (get_transactions data) ->
     let s := calculate_summary (H:=float_Number_compensated) data m o in
     Summary.inflows s = 0%float /\ Summary.outflows s = 0%float /\
     Summary.net s = 0%float /\ float_same (Summary.closing_balance s) o).
Proof.
  repeat apply conj; intros data o Hnone s; subst s.
  - destruct (summary_no_active data m o Hnone) as (_ & -> & -> & -> & ->).
    simpl. repeat split. lia.
  - destruct (summary_no_active data m o Hnone) as (_ & -> & -> & -> & ->).
    repeat split. apply float_add_zero_same.
  - destruct (summary_no_active (H:=float_Number_compensated) data m o Hnone)
      as (_ & -> & -> & -> & ->).
    repeat split. apply float_add_zero_same.
Qed.

Lemma C5_no_active_transactions_witness :
  let s := calculate_summary test_ledger "2023-12" 200%Z in
  Summary.inflows s = 0%Z /\ Summary.outflows s = 0%Z /\
  Summary.net s = 0%Z /\ Summary.closing_balance s = 200%Z.
Proof.
  apply (proj1 (C5_no_active_transactions "2023-12") test_ledger 200%Z).
  repeat constructor.
Defined.

(** The empty ledger, with or without its key, and the negative zero. *)
Example summary_empty_ledgers :
  calculate_summary (∅ : gmap string (list (Transaction Z))) "2024-02" 75%Z
  = {| Summary.month := "2024-02"; Summary.opening_balance := 75%Z;
       Summary.inflows := 0%Z; Summary.outflows := 0%Z; Summary.net := 0%Z;
       Summary.closing_balance := 75%Z; Summary.transactions := [] |} /\
  calculate_summary ({[ "transactions" := [] ]} : gmap string (list (Transaction Z)))
    "2024-02" 75%Z
  = calculate_summary (∅ : gmap string (list (Transaction Z))) "2024-02" 75%Z /\
  Summary.closing_balance
    (calculate_summary (∅ : gmap string (list (Transaction float))) "2024-02" (-0)%float)
  = 0%float.
Proof. repeat split. Qed.

(** C7 as stated fails on float amounts: the three inflows 1e308, 1e308 and
    -1e308 total infinity in this order (the first addition overflows) and
    1e308 once the last two are exchanged, whether [sum] adds from left to
    right or with compensation; net and closing balance follow. *)
Lemma C7_float_order_counterexample :
  Permutation (get_transactions float_ledger) (get_transactions float_ledger_perm) /\
  Summary.inflows (calculate_summary float_ledger "2024-01" 0%float) = infinity /\
  Summary.inflows (calculate_summary float_ledger_perm "2024-01" 0%float) = huge /\
  Summary.inflows
    (calculate_summary (H:=float_Number_compensated) float_ledger "2024-01" 0%float)
  = infinity /\
  Summary.inflows
    (calculate_summary (H:=float_Number_compensated) float_ledger_perm "2024-01" 0%float)
  = huge /\
  Summary.inflows (calculate_summary float_ledger "2024-01" 0%float)
  <> Summary.inflows (calculate_summary float_ledger_perm "2024-01" 0%float) /\
  Summary.net (calculate_summary float_ledger "2024-01" 0%float)
  <> Summary.net (calculate_summary float_ledger_perm "2024-01" 0%float) /\
  Summary.closing_balance (calculate_summary float_ledger "2024-01" 0%float)
  <> Summary.closing_balance (calculate_summary float_ledger_perm "2024-01" 0%float).
Proof.
  assert (Hne : forall x y : float, is_finite x <> is_finite y -> x <> y)
    by (intros x y Hxy ->; now apply Hxy).
  repeat apply conj.
  - apply perm_skip, perm_swap.
  - reflexivity.
  - reflexivity.
  - reflexivity.
  - reflexivity.
  - apply Hne. discriminate.
  - apply Hne. discriminate.
  - apply Hne. discriminate.
Qed.

(** With left-to-right addition the order already shows on everyday
    amounts: 0.1 + 0.2 + 0.3 is not 0.3 + 0.2 + 0.1. *)
Example float_sum_order_dimes :
  Summary.inflows
    (calculate_summary {[ "transactions" := [dime; two_dimes; three_dimes] ]}
       "2024-01" 0%float)
  = 0x1.3333333333334p-1%float /\
  Summary.inflows
    (calculate_summary {[ "transactions" := [three_dimes; two_dimes; dime] ]}
       "2024-01" 0%float)
  = 0x1.3333333333333p-1%float.
Proof. split; reflexivity. Qed.

(** C7 (amended): for int amounts, which add exactly, a permuted ledger has
    the same inflows, outflows, net and closing balance, and contributes the
    same transactions in permuted order. *)
Theorem C7_int_order_independent
    (data data' : gmap string (list (Transaction Z))) (m : string) (o : Z) :
  Permutation (get_transactions data) (get_transactions data') ->
  let s := calculate_summary data m o in
  let s' := calculate_summary data' m o in
  Summary.inflows s = Summary.inflows s' /\
  Summary.outflows s = Summary.outflows s' /\
  Summary.net s = Summary.net s' /\
  Summary.closing_balance s = Summary.closing_balance s' /\
  Permutation (Summary.transactions s) (Summary.transactions s').
Proof.
  intros HP s s'.
  pose proof (summary_transactions_permutation data data' m o HP) as Hactive.
  fold s s' in Hactive.
  assert (Hin : Summary.inflows s = Summary.inflows s').
  { apply int_sum_permutation, comprehension_permutation, Hactive. }
  assert (Hout : Summary.outflows s = Summary.outflows s').
  { apply int_sum_permutation, comprehension_permutation, Hactive. }
  assert (Hnet : Summary.net s = Summary.net s').
  { change (Summary.net s) with (Summary.inflows s - Summary.outflows s)%Z.
    change (Summary.net s') with (Summary.inflows s' - Summary.outflows s')%Z.
    now rewrite Hin, Hout. }
  repeat split; try assumption.
  change (o + Summary.net s = o + Summary.net s')%Z. now rewrite Hnet.
Qed.

Lemma C7_int_order_independent_witness :
  let s := calculate_summary test_ledger "2024-02" 200%Z in
  let s' := calculate_summary test_ledger_rev "2024-02" 200%Z in
  Summary.inflows s = Summary.inflows s' /\
  Summary.outflows s = Summary.outflows s' /\
  Summary.net s = Summary.net s' /\
  Summary.closing_balance s = Summary.closing_balance s' /\
  Permutation (Summary.transactions s) (Summary.transactions s').
Proof.
  apply (C7_int_order_independent test_ledger test_ledger_rev "2024-02" 200%Z).
  exact (Permutation_rev [salary; rent; vacation]).
Defined.



(** * Further properties of the code *)

(** ** Months in which a transaction is active *)

Lemma compare_refl (s : string) : String.compare s s = Eq.
Proof.
  induction s as [|c s IH]; simpl; [reflexivity|].
  unfold Ascii.compare. now rewrite N.compare_refl.
Qed.

Lemma leb_refl (s : string) : String.leb s s = true.
Proof. unfold String.leb. now rewrite compare_refl. Qed.

Lemma leb_trans (a b c : string) :
  String.leb a b = true -> String.leb b c = true -> String.leb a c = true.
Proof.
  unfold String.leb. intros Hab Hbc.
  destruct (String.compare a b) eqn:Eab; try discriminate.
  - apply String.compare_eq_iff in Eab. now subst b.
  - rewrite (compare_lt_le_trans a b c Eab); [reflexivity|].
    intros Hgt. now rewrite Hgt in Hbc.
Qed.

(** The months in which a transaction is active form an interval of the
    order on strings: a month between two active months is active.  This
    holds for every transaction, one-time or not, validated or not. *)
Theorem active_months_convex {A : Type} (txn : Transaction A) (m1 m2 m3 : string) :
  is_active_in_month txn m1 = true ->
  is_active_in_month txn m3 = true ->
  String.leb m1 m2 = true ->
  String.leb m2 m3 = true ->
  is_active_in_month txn m2 = true.
Proof.
  intros H1 H3 H12 H23.
  destruct (String.eqb_spec (recurrence txn) "one-time") as [Hone|Hrange].
  - rewrite is_active_one_time in * by assumption.
    destruct (month txn) as [x|]; simpl in *; [|discriminate].
    apply String.eqb_eq in H1, H3. subst m1 m3.
    apply String.eqb_eq. now apply String.leb_antisym.
  - rewrite is_active_range in * by assumption.
    apply andb_true_iff in H1 as [S1 _], H3 as [_ E3].
    apply negb_true_iff in S1, E3. apply start_guard in S1. apply end_guard in E3.
    apply andb_true_iff. split; apply negb_true_iff.
    + apply start_guard. destruct (start_month txn) as [s|]; [|exact I].
      now apply leb_trans with m1.
    + apply end_guard. destruct (end_month txn) as [e|]; [|exact I].
      destruct E3 as [->|E3]; [now left|right]. now apply leb_trans with m3.
Qed.

Lemma active_months_convex_witness :
  is_active_in_month
    (mkT "Lease" 900%Z "outflow" "recurring" "housing" None
       (Some "2024-01") (Some "2024-06") "7") "2024-03" = true.
Proof.
  apply (active_months_convex _ "2024-01" "2024-03" "2024-06"); reflexivity.
Defined.

(** A one-time transaction that passed construction has a month, and that
    month is the only one in which it is active, whatever start and end
    months were passed along. *)
Theorem constructed_one_time_single_month {A : Type} (uuid4 d : string) (a : A)
    (ty cat : string) (mo st en : option string) (i : string) (t : Transaction A) :
  new_Transaction uuid4 d a ty "one-time" cat mo st en i = Ok t ->
  exists s, mo = Some s /\ s <> "" /\
            forall m, is_active_in_month t m = true <-> m = s.
Proof.
  rewrite new_Transaction_checks. simpl.
  destruct (bool_decide (ty ∈ TYPES)); simpl; [|discriminate].
  destruct (truthy mo) eqn:Hmo; simpl; [|discriminate].
  intros [= <-].
  apply truthy_true in Hmo as (s & -> & Hs).
  exists s. repeat split; [exact Hs| |].
  - rewrite is_active_one_time by reflexivity. simpl.
    intros H. apply String.eqb_eq in H. congruence.
  - intros ->. rewrite is_active_one_time by reflexivity. simpl.
    apply String.eqb_refl.
Qed.

Lemma constructed_one_time_single_month_witness :
  exists s, Some "2024-02" = Some s /\ s <> "" /\
            forall m, is_active_in_month vacation m = true <-> m = s.
Proof.
  apply (constructed_one_time_single_month "9f1c" "Vacation" 500%Z "outflow" "fun"
           (Some "2024-02") None None "3" vacation).
  reflexivity.
Defined.

(** A recurring transaction that passed construction has a start month; it
    is active in no month below it and, when its end month is absent or
    empty, in its start month and in every month above it. *)
Theorem constructed_recurring_from_start {A : Type} (uuid4 d : string) (a : A)
    (ty cat : string) (mo st en : option string) (i : string) (t : Transaction A) :
  new_Transaction uuid4 d a ty "recurring" cat mo st en i = Ok t ->
  exists s, st = Some s /\ s <> "" /\
            (forall m, is_active_in_month t m = true -> String.leb s m = true) /\
            (truthy en = false ->
             forall m, is_active_in_month t m = true <-> String.leb s m = true).
Proof.
  rewrite new_Transaction_checks. simpl.
  destruct (bool_decide (ty ∈ TYPES)); simpl; [|discriminate].
  destruct (truthy st) eqn:Hst; simpl; [|discriminate].
  intros [= <-].
  apply truthy_true in Hst as (s & -> & Hs).
  exists s. split; [reflexivity|]. split; [exact Hs|].
  assert (Hact : forall m, is_active_in_month
                   (stored uuid4 d a ty "recurring" cat mo (Some s) en i) m
                 = negb (str_gt s m) && negb (truthy en && opt_str_lt en m)).
  { intros m. rewrite is_active_range by (simpl; discriminate). simpl.
    apply str_truthy_true in Hs. now rewrite Hs. }
  split.
  - intros m. rewrite Hact, str_gt_leb, negb_involutive.
    intros H. now apply andb_true_iff in H as [H _].
  - intros Hen m. rewrite Hact, Hen, str_gt_leb, negb_involutive. simpl.
    now rewrite andb_true_r.
Qed.

Lemma constructed_recurring_from_start_witness :
  exists s, Some "2024-01" = Some s /\ s <> "" /\
            (forall m, is_active_in_month salary m = true -> String.leb s m = true) /\
            (truthy None = false ->
             forall m, is_active_in_month salary m = true <-> String.leb s m = true).
Proof.
  apply (constructed_recurring_from_start "9f1c" "Salary" 3000%Z "inflow" "income"
           None (Some "2024-01") None "1" salary).
  reflexivity.
Defined.

(** ** Month strings and the calendar *)

Lemma ascii_eqb_code (a b : ascii) :
  Ascii.eqb a b = (N_of_ascii a =? N_of_ascii b)%N.
Proof.
  destruct (Ascii.eqb_spec a b) as [->|Hne].
  - now rewrite N.eqb_refl.
  - symmetry. apply N.eqb_neq. intros H. apply Hne.
    rewrite <- (ascii_N_embedding a), <- (ascii_N_embedding b). now rewrite H.
Qed.

Lemma is_digit_code (c : ascii) :
  is_digit c = true <-> (48 <= N_of_ascii c <= 57)%N.
Proof.
  unfold is_digit. rewrite andb_true_iff, !N.leb_le. reflexivity.
Qed.

Lemma digit_value_Some (c : ascii) (v : Z) :
  digit_value c = Some v ->
  (48 <= N_of_ascii c <= 57)%N /\ v = (Z.of_N (N_of_ascii c) - 48)%Z.
Proof.
  unfold digit_value. destruct (is_digit c) eqn:Hd; [|discriminate].
  intros [= <-]. split; [now apply is_digit_code|reflexivity].
Qed.

(** A text with a calendar position is seven characters long: four digits,
    a dash, and two digits forming a month from 01 to 12. *)
Lemma month_ordinal_Some (s : string) (k : Z) :
  month_ordinal s = Some k ->
  exists a b c d e f va vb vc vd ve vf,
    s = String a (String b (String c (String d (String "-" (String e (String f ""))))))
    /\ digit_value a = Some va /\ digit_value b = Some vb
    /\ digit_value c = Some vc /\ digit_value d = Some vd
    /\ digit_value e = Some ve /\ digit_value f = Some vf
    /\ (1 <= 10 * ve + vf <= 12)%Z
    /\ k = (12 * (1000 * va + 100 * vb + 10 * vc + vd) + (10 * ve + vf))%Z.
Proof.
  destruct s as [|a [|b [|c [|d [|sep [|e [|f [|? ?]]]]]]]]; try discriminate.
  unfold month_ordinal.
  destruct (digit_value a) as [va|] eqn:Da; [|discriminate].
  destruct (digit_value b) as [vb|] eqn:Db; [|discriminate].
  destruct (digit_value c) as [vc|] eqn:Dc; [|discriminate].
  destruct (digit_value d) as [vd|] eqn:Dd; [|discriminate].
  destruct (digit_value e) as [ve|] eqn:De; [|discriminate].
  destruct (digit_value f) as [vf|] eqn:Df; [|discriminate].
  cbv zeta.
  destruct (Ascii.eqb_spec sep "-") as [->|_]; [|discriminate]. simpl andb.
  destruct (1 <=? 10 * ve + vf)%Z eqn:H1; [|discriminate].
  destruct (10 * ve + vf <=? 12)%Z eqn:H2; [|discriminate].
  intros [= <-]. apply Z.leb_le in H1, H2.
  exists a, b, c, d, e, f, va, vb, vc, vd, ve, vf. repeat split; auto.
Qed.

Lemma month_ordinal_order (a b : string) (x y : Z) :
  month_ordinal a = Some x ->
  month_ordinal b = Some y ->
  (String.leb a b = true <-> (x <= y)%Z) /\ (a = b <-> x = y).
Proof.
  intros Ha Hb.
  apply month_ordinal_Some in Ha
    as (a1 & a2 & a3 & a4 & a5 & a6 & u1 & u2 & u3 & u4 & u5 & u6
        & -> & A1 & A2 & A3 & A4 & A5 & A6 & Ma & ->).
  apply month_ordinal_Some in Hb
    as (b1 & b2 & b3 & b4 & b5 & b6 & v1 & v2 & v3 & v4 & v5 & v6
        & -> & B1 & B2 & B3 & B4 & B5 & B6 & Mb & ->).
  apply digit_value_Some in A1 as [RA1 ->], A2 as [RA2 ->], A3 as [RA3 ->],
    A4 as [RA4 ->], A5 as [RA5 ->], A6 as [RA6 ->].
  apply digit_value_Some in B1 as [RB1 ->], B2 as [RB2 ->], B3 as [RB3 ->],
    B4 as [RB4 ->], B5 as [RB5 ->], B6 as [RB6 ->].
  assert (Hcode : forall p q : ascii, N_of_ascii p = N_of_ascii q -> p = q).
  { intros p q H. rewrite <- (ascii_N_embedding p), <- (ascii_N_embedding q).
    now rewrite H. }
  split.
  - unfold String.leb. simpl String.compare. unfold Ascii.compare.
    destruct (N.compare_spec (N_of_ascii a1) (N_of_ascii b1)) as [E1|L1|G1];
      [|split; [lia|reflexivity]|split; [discriminate|lia]].
    destruct (N.compare_spec (N_of_ascii a2) (N_of_ascii b2)) as [E2|L2|G2];
      [|split; [lia|reflexivity]|split; [discriminate|lia]].
    destruct (N.compare_spec (N_of_ascii a3) (N_of_ascii b3)) as [E3|L3|G3];
      [|split; [lia|reflexivity]|split; [discriminate|lia]].
    destruct (N.compare_spec (N_of_ascii a4) (N_of_ascii b4)) as [E4|L4|G4];
      [|split; [lia|reflexivity]|split; [discriminate|lia]].
    destruct (N.compare_spec (N_of_ascii a5) (N_of_ascii b5)) as [E5|L5|G5];
      [|split; [lia|reflexivity]|split; [discriminate|lia]].
    destruct (N.compare_spec (N_of_ascii a6) (N_of_ascii b6)) as [E6|L6|G6];
      [|split; [lia|reflexivity]|split; [discriminate|lia]].
    split; [lia|reflexivity].
  - split.
    + intros [= -> -> -> -> -> ->]. reflexivity.
    + intros Hxy.
      assert (N_of_ascii a1 = N_of_ascii b1) by lia.
      assert (N_of_ascii a2 = N_of_ascii b2) by lia.
      assert (N_of_ascii a3 = N_of_ascii b3) by lia.
      assert (N_of_ascii a4 = N_of_ascii b4) by lia.
      assert (N_of_ascii a5 = N_of_ascii b5) by lia.
      assert (N_of_ascii a6 = N_of_ascii b6) by lia.
      f_equal; [now apply Hcode|]. f_equal; [now apply Hcode|].
      f_equal; [now apply Hcode|]. f_equal; [now apply Hcode|].
      f_equal. f_equal; [now apply Hcode|]. f_equal. now apply Hcode.
Qed.

(** On zero-padded months the order on strings is the order of the
    calendar, and equal positions mean equal texts. *)
Theorem padded_months_order_is_calendar_order (a b : string) (x y : Z) :
  month_ordinal a = Some x ->
  month_ordinal b = Some y ->
  (String.leb a b = true <-> (x <= y)%Z) /\ (a = b <-> x = y).
Proof. exact (month_ordinal_order a b x y). Qed.

Lemma padded_months_order_is_calendar_order_witness :
  (String.leb "2023-12" "2024-01" = true <-> (24288 <= 24289)%Z) /\
  ("2023-12" = "2024-01" <-> 24288%Z = 24289%Z).
Proof.
  apply (padded_months_order_is_calendar_order "2023-12" "2024-01"); reflexivity.
Defined.

Lemma month_ordinal_not_empty (s : string) (k : Z) :
  month_ordinal s = Some k -> s <> "".
Proof. intros H ->. discriminate. Qed.

(** With zero-padded months throughout, a recurring transaction is active
    exactly from its start month to its end month on the calendar, both
    included, and from its start month on when it has no end month. *)
Theorem recurring_active_by_calendar {A : Type} (txn : Transaction A)
    (s m : string) (ks km : Z) :
  recurrence txn = "recurring" ->
  start_month txn = Some s ->
  month_ordinal s = Some ks ->
  month_ordinal m = Some km ->
  match end_month txn with
  | None => True
  | Some e => month_ordinal e <> None
  end ->
  is_active_in_month txn m = true <->
  (ks <= km)%Z /\
  match end_month txn with
  | None => True
  | Some e => exists ke, month_ordinal e = Some ke /\ (km <= ke)%Z
  end.
Proof.
  intros Hrec Hs Ks Km He.
  rewrite is_active_range by (rewrite Hrec; discriminate).
  rewrite andb_true_iff, !negb_true_iff, start_guard, end_guard, Hs.
  rewrite (proj1 (month_ordinal_order s m ks km Ks Km)).
  destruct (end_month txn) as [e|]; [|reflexivity].
  destruct (month_ordinal e) as [ke|] eqn:Ke; [|contradiction].
  pose proof (month_ordinal_not_empty e ke Ke) as Hne.
  rewrite (proj1 (month_ordinal_order m e km ke Km Ke)).
  split.
  - intros [H1 [H2|H2]]; [contradiction|]. split; [exact H1|]. now exists ke.
  - intros [H1 (ke' & [= <-] & H2)]. split; [exact H1|now right].
Qed.

Lemma recurring_active_by_calendar_witness :
  is_active_in_month
    (mkT "Lease" 900%Z "outflow" "recurring" "housing" None
       (Some "2023-11") (Some "2024-02") "8") "2024-01" = true <->
  (24287 <= 24289)%Z /\
  exists ke, month_ordinal "2024-02" = Some ke /\ (24289 <= ke)%Z.
Proof.
  apply (recurring_active_by_calendar
           (mkT "Lease" 900%Z "outflow" "recurring" "housing" None
              (Some "2023-11") (Some "2024-02") "8") "2023-11" "2024-01");
    try reflexivity.
  discriminate.
Defined.

(** [parse_month] hands its argument back unchanged, and it accepts months
    written without padding.  A recurring transaction whose start month is
    such a text, year-dash-digit, is inactive in each of the padded months
    01 to 09 of that very year, the later ones as well: the digit is above
    the padding zero in the order on strings. *)
Theorem unpadded_start_month_hides_later_months {A : Type} (txn : Transaction A)
    (a b c d e f : ascii) :
  let start := String a (String b (String c (String d (String "-" (String e ""))))) in
  let target := String a (String b (String c (String d (String "-" (String "0" (String f "")))))) in
  strptime_Y_m start = true ->
  recurrence txn = "recurring" ->
  start_month txn = Some start ->
  parse_month start = Some start /\ is_active_in_month txn target = false.
Proof.
  intros start target Hok Hrec Hs.
  split; [unfold parse_month; now rewrite Hok|].
  rewrite is_active_range by (rewrite Hrec; discriminate).
  rewrite Hs. subst start target. simpl truthy. simpl opt_str_gt.
  assert (He : (48 < N_of_ascii e)%N).
  { unfold strptime_Y_m, matches_month in Hok.
    rewrite !andb_true_iff in Hok. destruct Hok as (_ & Hd & Hz).
    apply is_digit_code in Hd. apply negb_true_iff in Hz.
    rewrite ascii_eqb_code in Hz. apply N.eqb_neq in Hz.
    change (N_of_ascii "0") with 48%N in Hz. lia. }
  unfold str_gt, String.ltb. simpl String.compare. unfold Ascii.compare.
  rewrite !N.compare_refl.
  change (N_of_ascii "0") with 48%N.
  now rewrite (proj2 (N.compare_lt_iff 48 (N_of_ascii e)) He).
Qed.

Lemma unpadded_start_month_hides_later_months_witness :
  parse_month "2024-3" = Some "2024-3" /\
  is_active_in_month
    (mkT "Gym" 30%Z "outflow" "recurring" "health" None (Some "2024-3") None "9")
    "2024-05" = false.
Proof.
  apply (unpadded_start_month_hides_later_months
           (mkT "Gym" 30%Z "outflow" "recurring" "health" None (Some "2024-3") None "9")
           "2" "0" "2" "4" "3" "5"); reflexivity.
Defined.

Lemma is_digit_value (c : ascii) :
  is_digit c = true -> digit_value c = Some (Z.of_N (N_of_ascii c) - 48)%Z.
Proof. unfold digit_value. now intros ->. Qed.

Lemma ascii_eqb_true_code (a b : ascii) :
  Ascii.eqb a b = true <-> N_of_ascii a = N_of_ascii b.
Proof. rewrite ascii_eqb_code. apply N.eqb_eq. Qed.

Lemma ascii_eqb_false_code (a b : ascii) :
  Ascii.eqb a b = false <-> N_of_ascii a <> N_of_ascii b.
Proof. rewrite ascii_eqb_code. apply N.eqb_neq. Qed.

(** [parse_month] never changes the text and never accepts the empty one;
    what it accepts has six or seven characters, and among the texts of
    seven characters it accepts exactly the zero-padded months of the years
    0001 to 9999, that is those with a calendar position of 13 or more. *)
Theorem parse_month_accepts_padded_months (s : string) :
  (forall s', parse_month s = Some s' ->
     s' = s /\ s <> "" /\ (String.length s = 6 \/ String.length s = 7)) /\
  (String.length s = 7 ->
   (parse_month s = Some s <-> exists k, month_ordinal s = Some k /\ (13 <= k)%Z)).
Proof.
  split.
  - intros s'. unfold parse_month.
    destruct (strptime_Y_m s) eqn:Hok; [|discriminate]. intros [= <-].
    split; [reflexivity|]. split; [intros ->; discriminate|].
    destruct s as [|a [|b [|c [|d [|sep [|e [|f [|g rest]]]]]]]];
      simpl String.length; auto; exfalso;
      unfold strptime_Y_m, matches_month in Hok;
      rewrite ?andb_false_r in Hok; discriminate Hok.
  - intros Hlen.
    destruct s as [|a [|b [|c [|d [|sep [|e [|f [|g rest]]]]]]]];
      try discriminate.
    unfold parse_month. split.
    + destruct (strptime_Y_m _) eqn:Hok; [intros _|discriminate].
      unfold strptime_Y_m, matches_month in Hok.
      rewrite !andb_true_iff in Hok.
      destruct Hok as ((((((Da & Db) & Dc) & Dd) & Hz) & Hsep) & Hmon).
      apply Ascii.eqb_eq in Hsep. subst sep.
      assert (De : is_digit e = true /\ is_digit f = true /\
                   (1 <= 10 * (Z.of_N (N_of_ascii e) - 48)
                         + (Z.of_N (N_of_ascii f) - 48) <= 12)%Z).
      { rewrite !is_digit_code.
        apply orb_true_iff in Hmon.
        rewrite !andb_true_iff, !orb_true_iff, negb_true_iff in Hmon.
        rewrite is_digit_code, !ascii_eqb_true_code, ascii_eqb_false_code in Hmon.
        change (N_of_ascii "0") with 48%N in Hmon.
        change (N_of_ascii "1") with 49%N in Hmon.
        change (N_of_ascii "2") with 50%N in Hmon.
        lia. }
      destruct De as (De & Df & Hrange).
      unfold month_ordinal.
      rewrite (is_digit_value a Da), (is_digit_value b Db), (is_digit_value c Dc),
        (is_digit_value d Dd), (is_digit_value e De), (is_digit_value f Df).
      cbv zeta. simpl Ascii.eqb. simpl andb.
      rewrite (proj2 (Z.leb_le _ _) (proj1 Hrange)),
        (proj2 (Z.leb_le _ _) (proj2 Hrange)).
      eexists. split; [reflexivity|].
      apply negb_true_iff in Hz. rewrite !andb_false_iff in Hz.
      rewrite !ascii_eqb_false_code in Hz.
      change (N_of_ascii "0") with 48%N in Hz.
      apply is_digit_code in Da, Db, Dc, Dd. lia.
    + intros (k & Hk & Hyear).
      apply month_ordinal_Some in Hk
        as (a1 & a2 & a3 & a4 & a5 & a6 & u1 & u2 & u3 & u4 & u5 & u6
            & [= -> -> -> -> -> -> ->] & A1 & A2 & A3 & A4 & A5 & A6 & Hm & ->).
      apply digit_value_Some in A1 as [R1 ->], A2 as [R2 ->], A3 as [R3 ->],
        A4 as [R4 ->], A5 as [R5 ->], A6 as [R6 ->].
      assert (Hok : strptime_Y_m
                (String a1 (String a2 (String a3 (String a4
                   (String "-" (String a5 (String a6 ""))))))) = true).
      { unfold strptime_Y_m, matches_month.
        rewrite !andb_true_iff, orb_true_iff, !andb_true_iff, !orb_true_iff,
          !negb_true_iff, !andb_false_iff, !is_digit_code,
          !ascii_eqb_true_code, !ascii_eqb_false_code.
        change (N_of_ascii "0") with 48%N.
        change (N_of_ascii "1") with 49%N.
        change (N_of_ascii "2") with 50%N.
        change (N_of_ascii "-") with 45%N.
        lia. }
      now rewrite Hok.
Qed.

Lemma parse_month_accepts_padded_months_witness :
  parse_month "2024-02" = Some "2024-02" <->
  exists k, month_ordinal "2024-02" = Some k /\ (13 <= k)%Z.
Proof.
  apply (proj2 (parse_month_accepts_padded_months "2024-02")). reflexivity.
Defined.

(** ** The store and the commands *)

Section Store.
Context {A : Type}.
Implicit Types (w : World A) (args : AddArgs.t A).

Lemma load_data_current w : load_data w = (Ok (current_ledger w), w).
Proof. unfold load_data, current_ledger. now destruct (data_file w). Qed.

Lemma for_each_print {X : Type} (line : X -> string) (xs : list X) w :
  for_each xs (fun x => print (line x)) w = (Ok tt, printed w (map line xs)).
Proof.
  revert w. induction xs as [|x xs IH]; intros w.
  - destruct w. unfold printed. simpl. now rewrite app_nil_r.
  - simpl for_each. unfold bind at 1. unfold print at 1. rewrite IH.
    unfold printed. simpl. now rewrite <- app_assoc.
Qed.

(** [handle_add] in one step: the construction decides everything. *)
Lemma handle_add_step args w :
  handle_add args w =
    match new_Transaction (uuids w (uuids_drawn w)) (AddArgs.description args)
            (AddArgs.amount args) (AddArgs.type args)
            (if AddArgs.recurring args then "recurring" else "one-time")
            (AddArgs.category args) (AddArgs.month args)
            (AddArgs.start_month args) (AddArgs.end_month args) "" with
    | Ok txn =>
        (Ok tt,
         {| data_file := Some (append_transaction (current_ledger w) txn);
            stdout := (stdout w ++ [("Added " ++ type txn ++ " '" ++ description txn
                                     ++ "' with id " ++ id txn)%string])%list;
            uuids := uuids w; uuids_drawn := S (uuids_drawn w) |})
    | Raise e =>
        (Raise e,
         {| data_file := data_file w; stdout := stdout w;
            uuids := uuids w; uuids_drawn := S (uuids_drawn w) |})
    end.
Proof.
  unfold handle_add, bind. rewrite load_data_current.
  unfold construct. simpl negb. cbv iota.
  destruct (new_Transaction _ _ _ _ _ _ _ _ _ _); reflexivity.
Qed.

Lemma get_transactions_append (data : gmap string (list (Transaction A))) txn :
  get_transactions (append_transaction data txn)
  = (get_transactions data ++ [txn])%list.
Proof.
  unfold get_transactions, append_transaction. now rewrite lookup_insert_eq.
Qed.

End Store.



(** A [handle_add] that returns has appended one validated transaction, the
    arguments under a newly drawn identifier, at the end of the stored list:
    the earlier transactions keep their places, the other keys of the file
    their values, and the one line printed names the new transaction. *)
Theorem handle_add_appends {A : Type} (args : AddArgs.t A) (w w' : World A) :
  handle_add args w = (Ok tt, w') ->
  let txn := entered args w in
  validated txn /\
  id txn = uuids w (uuids_drawn w) /\
  data_file w' = Some (append_transaction (current_ledger w) txn) /\
  get_transactions (current_ledger w')
  = (get_transactions (current_ledger w) ++ [txn])%list /\
  (forall key, key <> "transactions" ->
               current_ledger w' !! key = current_ledger w !! key) /\
  stdout w' = (stdout w ++ [("Added " ++ AddArgs.type args ++ " '"
                             ++ AddArgs.description args ++ "' with id "
                             ++ uuids w (uuids_drawn w))%string])%list.
Proof.
  rewrite handle_add_step, new_Transaction_checks. intros Hrun txn.
  destruct (bool_decide (AddArgs.type args ∈ TYPES)) eqn:Hty; simpl in Hrun;
    [|discriminate].
  apply bool_decide_eq_true, type_in_TYPES in Hty.
  assert (Hvalid : validated txn /\
                   (Ok tt, {| data_file := Some (append_transaction (current_ledger w) txn);
                              stdout := (stdout w ++ [("Added " ++ type txn ++ " '"
                                            ++ description txn ++ "' with id "
                                            ++ id txn)%string])%list;
                              uuids := uuids w; uuids_drawn := S (uuids_drawn w) |})
                   = (Ok tt, w')).
  { subst txn. unfold entered, validated. simpl.
    destruct (AddArgs.recurring args); simpl in *.
    - destruct (truthy (AddArgs.start_month args)) eqn:Hst; simpl in Hrun;
        [|discriminate].
      apply truthy_true in Hst. split; [split; [exact Hty|right; auto]|exact Hrun].
    - destruct (truthy (AddArgs.month args)) eqn:Hmo; simpl in Hrun;
        [|discriminate].
      apply truthy_true in Hmo. split; [split; [exact Hty|left; auto]|exact Hrun]. }
  destruct Hvalid as [Hvalid [= <-]].
  split; [exact Hvalid|]. split; [reflexivity|]. split; [reflexivity|].
  split; [apply get_transactions_append|]. split; [|reflexivity].
  intros key Hkey. unfold current_ledger at 1. simpl.
  unfold append_transaction. now rewrite lookup_insert_ne.
Qed.

Lemma handle_add_appends_witness :
  let w := fresh_world tally_ids in
  let w' := snd (handle_add add_salary w) in
  let txn := entered add_salary w in
  validated txn /\
  id txn = uuids w (uuids_drawn w) /\
  data_file w' = Some (append_transaction (current_ledger w) txn) /\
  get_transactions (current_ledger w')
  = (get_transactions (current_ledger w) ++ [txn])%list /\
  (forall key, key <> "transactions" ->
               current_ledger w' !! key = current_ledger w !! key) /\
  stdout w' = (stdout w ++ [("Added " ++ AddArgs.type add_salary ++ " '"
                             ++ AddArgs.description add_salary ++ "' with id "
                             ++ uuids w (uuids_drawn w))%string])%list.
Proof.
  apply (handle_add_appends add_salary (fresh_world tally_ids)
           (snd (handle_add add_salary (fresh_world tally_ids)))).
  reflexivity.
Defined.

(** ** More on the summary *)

Lemma comprehension_app {X Y : Type} (f : X -> Y) (p : X -> bool) (xs ys : list X) :
  comprehension f p (xs ++ ys)%list
  = (comprehension f p xs ++ comprehension f p ys)%list.
Proof.
  induction xs as [|x xs IH]; simpl; [reflexivity|].
  destruct (p x); simpl; now rewrite IH.
Qed.

Lemma comprehension_idempotent {X : Type} (p : X -> bool) (xs : list X) :
  comprehension (fun x => x) p (comprehension (fun x => x) p xs)
  = comprehension (fun x => x) p xs.
Proof.
  induction xs as [|x xs IH]; simpl; [reflexivity|].
  destruct (p x) eqn:Hp; simpl; [rewrite Hp|]; now rewrite IH.
Qed.

Section SummaryOfLists.
Context {A : Type} `{Number A}.
Implicit Types (txns : list (Transaction A)) (m : string) (o : A).

Lemma get_transactions_singleton txns :
  get_transactions ({[ "transactions" := txns ]} : gmap string (list (Transaction A)))
  = txns.
Proof. unfold get_transactions. now rewrite lookup_singleton_eq. Qed.

(** A summary is decided by the three lists it draws from the ledger. *)
Lemma summary_ext (data data' : gmap string (list (Transaction A))) m o :
  comprehension (fun t => t) (fun t => is_active_in_month t m) (get_transactions data)
  = comprehension (fun t => t) (fun t => is_active_in_month t m) (get_transactions data') ->
  calculate_summary data m o = calculate_summary data' m o.
Proof. intros Heq. unfold calculate_summary. now rewrite Heq. Qed.

End SummaryOfLists.

(** Only the contributing transactions matter: the summary of the list a
    summary reports is that same summary, so a ledger and the ledger
    stripped of the transactions inactive in the month cannot be told
    apart by [calculate_summary]. *)
Theorem summary_of_contributing_transactions {A : Type} `{Number A}
    (data : gmap string (list (Transaction A))) (m : string) (o : A) :
  calculate_summary
    {[ "transactions" := Summary.transactions (calculate_summary data m o) ]} m o
  = calculate_summary data m o.
Proof.
  apply summary_ext. rewrite get_transactions_singleton. simpl.
  apply comprehension_idempotent.
Qed.

(** A transaction whose type is neither inflow nor outflow (the store is
    read unchecked) is listed when active but enters no total: inflows,
    outflows, net and closing balance are those of the ledger without it. *)
Theorem unknown_type_counts_nowhere {A : Type} `{Number A}
    (before after : list (Transaction A)) (t : Transaction A) (m : string) (o : A) :
  type t <> "inflow" ->
  type t <> "outflow" ->
  let s := calculate_summary {[ "transactions" := (before ++ t :: after)%list ]} m o in
  let s' := calculate_summary {[ "transactions" := (before ++ after)%list ]} m o in
  Summary.inflows s = Summary.inflows s' /\
  Summary.outflows s = Summary.outflows s' /\
  Summary.net s = Summary.net s' /\
  Summary.closing_balance s = Summary.closing_balance s' /\
  (is_active_in_month t m = true -> In t (Summary.transactions s)).
Proof.
  intros Hin Hout s s'. subst s s'. unfold calculate_summary.
  rewrite !get_transactions_singleton. simpl.
  rewrite !comprehension_app. simpl.
  apply String.eqb_neq in Hin, Hout.
  destruct (is_active_in_month t m) eqn:Hact.
  - simpl. rewrite Hin, Hout.
    repeat split. intros _. apply in_or_app. right. now left.
  - repeat split. discriminate.
Qed.

Lemma unknown_type_counts_nowhere_witness :
  let t := mkT "Refund" 40%Z "Inflow" "one-time" "misc" (Some "2024-02") None None "r" in
  let s := calculate_summary {[ "transactions" := ([salary] ++ t :: [rent])%list ]}
             "2024-02" 0%Z in
  let s' := calculate_summary {[ "transactions" := ([salary] ++ [rent])%list ]}
              "2024-02" 0%Z in
  Summary.inflows s = Summary.inflows s' /\
  Summary.outflows s = Summary.outflows s' /\
  Summary.net s = Summary.net s' /\
  Summary.closing_balance s = Summary.closing_balance s' /\
  (is_active_in_month t "2024-02" = true -> In t (Summary.transactions s)).
Proof.
  apply (unknown_type_counts_nowhere [salary]  [rent]
           (mkT "Refund" 40%Z "Inflow" "one-time" "misc" (Some "2024-02") None None "r")
           "2024-02" 0%Z); discriminate.
Defined.

Lemma int_sum_from (xs : list Z) (acc : Z) :
  fold_left Z.add xs acc = (acc + fold_left Z.add xs 0)%Z.
Proof.
  revert acc. induction xs as [|x xs IH]; intros acc; cbn [fold_left]; [lia|].
  rewrite (IH (acc + x)%Z), (IH (0 + x)%Z). lia.
Qed.

Lemma int_sum_app (xs ys : list Z) (acc : Z) :
  fold_left Z.add (xs ++ ys)%list acc
  = (fold_left Z.add xs acc + fold_left Z.add ys 0)%Z.
Proof. rewrite fold_left_app. apply int_sum_from. Qed.

(** With int amounts a summary can be taken in instalments: the totals of a
    ledger made of two parts are the sums of the totals of the parts, and
    the closing balance is the one reached by summarising the second part
    from the closing balance of the first. *)
Theorem int_summary_in_instalments (part1 part2 : list (Transaction Z))
    (m : string) (o : Z) :
  let s := calculate_summary {[ "transactions" := (part1 ++ part2)%list ]} m o in
  let s1 := calculate_summary {[ "transactions" := part1 ]} m o in
  let s2 := calculate_summary {[ "transactions" := part2 ]} m
              (Summary.closing_balance s1) in
  Summary.inflows s = (Summary.inflows s1 + Summary.inflows s2)%Z /\
  Summary.outflows s = (Summary.outflows s1 + Summary.outflows s2)%Z /\
  Summary.net s = (Summary.net s1 + Summary.net s2)%Z /\
  Summary.closing_balance s = Summary.closing_balance s2 /\
  Summary.transactions s = (Summary.transactions s1 ++ Summary.transactions s2)%list.
Proof.
  intros s s1 s2. subst s s1 s2. unfold calculate_summary.
  rewrite !get_transactions_singleton. simpl.
  rewrite !comprehension_app, !int_sum_app.
  repeat split; lia.
Qed.

Lemma int_summary_in_instalments_example :
  Summary.closing_balance
    (calculate_summary {[ "transactions" := [rent; vacation] ]} "2024-02"
       (Summary.closing_balance
          (calculate_summary {[ "transactions" := [salary] ]} "2024-02" 200%Z)))
  = 1500%Z.
Proof. reflexivity. Qed.

(** ** Commands over the store *)

Section Commands.
Context {A : Type} `{Number A} `{Format2f A}.
Implicit Types (w : World A) (args : AddArgs.t A).

(** A returning [handle_add] leaves the world with the entered transaction
    appended and one more identifier drawn. *)
Lemma handle_add_returns args w w' :
  handle_add args w = (Ok tt, w') ->
  w' = {| data_file := Some (append_transaction (current_ledger w) (entered args w));
          stdout := (stdout w ++ [("Added " ++ AddArgs.type args ++ " '"
                                   ++ AddArgs.description args ++ "' with id "
                                   ++ uuids w (uuids_drawn w))%string])%list;
          uuids := uuids w; uuids_drawn := S (uuids_drawn w) |}
  /\ validated (entered args w).
Proof.
  rewrite handle_add_step, new_Transaction_checks. unfold entered, validated.
  destruct (bool_decide (AddArgs.type args ∈ TYPES)) eqn:Hty; simpl;
    [|discriminate].
  apply bool_decide_eq_true, type_in_TYPES in Hty.
  destruct (AddArgs.recurring args); simpl.
  - destruct (truthy (AddArgs.start_month args)) eqn:Hst; simpl; [|discriminate].
    apply truthy_true in Hst. intros [= <-]. auto.
  - destruct (truthy (AddArgs.month args)) eqn:Hmo; simpl; [|discriminate].
    apply truthy_true in Hmo. intros [= <-]. auto.
Qed.

Lemma handle_add_raises args w w' e :
  handle_add args w = (Raise e, w') ->
  w' = {| data_file := data_file w; stdout := stdout w;
          uuids := uuids w; uuids_drawn := S (uuids_drawn w) |}.
Proof.
  rewrite handle_add_step.
  destruct (new_Transaction _ _ _ _ _ _ _ _ _ _); [discriminate|].
  now intros [= _ <-].
Qed.

Lemma handle_reset_step w :
  handle_reset w =
    (Ok tt,
     {| data_file := None;
        stdout := (stdout w ++ [match data_file w with
                                | Some _ => "Cleared saved cash flow data."
                                | None => "No data file to clear."
                                end])%list;
        uuids := uuids w; uuids_drawn := uuids_drawn w |}).
Proof.
  unfold handle_reset. destruct (data_file w) eqn:Hfile.
  - reflexivity.
  - unfold print. now rewrite Hfile.
Qed.

(** The transactions [handle_list] shows for its [month] argument. *)
Lemma handle_list_step w (month_ : option string) :
  handle_list month_ w =
    (Ok tt,
     printed w
       (match (if truthy month_
               then comprehension (fun txn => txn)
                      (fun txn => is_active_in_month txn (str_of month_))
                      (get_transactions (current_ledger w))
               else get_transactions (current_ledger w)) with
        | [] => ["No transactions found."]
        | shown => map list_line shown
        end)).
Proof.
  unfold handle_list, bind. rewrite load_data_current.
  destruct (if truthy month_ then _ else _) as [|t shown] eqn:Hshown.
  - reflexivity.
  - apply (for_each_print list_line (t :: shown) w).
Qed.

Lemma handle_summary_step w (m : string) (o : A) :
  handle_summary m o w =
    let s := calculate_summary (current_ledger w) m o in
    (Ok tt,
     printed w
       ([("Cash flow summary for " ++ m)%string;
         ("Opening balance: $" ++ format_2f o)%string;
         ("Total inflows:  $" ++ format_2f (Summary.inflows s))%string;
         ("Total outflows: $" ++ format_2f (Summary.outflows s))%string;
         ("Net income:      $" ++ format_2f (Summary.net s))%string;
         ("Closing balance: $" ++ format_2f (Summary.closing_balance s))%string]
        ++ match Summary.transactions s with
           | [] => []
           | shown =>
               String "010" "Transactions contributing to this month:"
               :: map summary_line shown
           end)%list).
Proof.
  unfold handle_summary, bind. rewrite load_data_current. cbv zeta.
  unfold print at 1 2 3 4 5 6. cbn [fst snd].
  destruct (Summary.transactions (calculate_summary (current_ledger w) m o))
    as [|t shown] eqn:Hshown.
  - unfold ret, printed. simpl. now rewrite <- !app_assoc.
  - unfold print at 1. rewrite for_each_print. unfold printed. simpl.
    now rewrite <- !app_assoc.
Qed.

End Commands.

(** [handle_reset] always returns and leaves no data file, whatever the
    file held; it prints one line telling whether there was one, so a
    second reset in a row only reports that nothing is left.  The ledger
    read afterwards is empty: every summary then has no contributing
    transaction. *)
Theorem reset_clears_the_store {A : Type} `{Number A} (w : World A) :
  let w1 := snd (handle_reset w) in
  fst (handle_reset w) = Ok tt /\
  data_file w1 = None /\
  stdout w1 = (stdout w ++ [match data_file w with
                            | Some _ => "Cleared saved cash flow data."
                            | None => "No data file to clear."
                            end])%list /\
  handle_reset w1 = (Ok tt, printed w1 ["No data file to clear."]) /\
  get_transactions (current_ledger w1) = [] /\
  forall m o, Summary.transactions (calculate_summary (current_ledger w1) m o) = [].
Proof.
  intros w1. subst w1. rewrite !handle_reset_step. simpl.
  repeat split.
Qed.

(** Adding and summarising compose: after a returning [handle_add], the
    summary of a month in which the entered transaction is inactive is the
    summary from before; for a month in which it is active the transaction
    comes last among the contributing ones and its amount is added to the
    former inflows or outflows, by its type.  This holds whenever [sum] adds
    from left to right, as for int amounts and for float amounts without
    compensation. *)
Theorem added_transaction_enters_summary {A : Type} `{Number A}
    (args : AddArgs.t A) (w w' : World A) (m : string) (o : A) :
  (forall xs, builtin_sum xs = fold_left add xs zero) ->
  handle_add args w = (Ok tt, w') ->
  let txn := entered args w in
  let s := calculate_summary (current_ledger w) m o in
  let s' := calculate_summary (current_ledger w') m o in
  if is_active_in_month txn m then
    Summary.transactions s' = (Summary.transactions s ++ [txn])%list /\
    Summary.inflows s' =
      (if String.eqb (AddArgs.type args) "inflow"
       then add (Summary.inflows s) (AddArgs.amount args)
       else Summary.inflows s) /\
    Summary.outflows s' =
      (if String.eqb (AddArgs.type args) "outflow"
       then add (Summary.outflows s) (AddArgs.amount args)
       else Summary.outflows s)
  else s' = s.
Proof.
  intros Hsum Hrun txn s s'.
  assert (Hledger : get_transactions (current_ledger w')
                    = (get_transactions (current_ledger w) ++ [txn])%list).
  { apply handle_add_returns in Hrun as [-> _]. apply get_transactions_append. }
  subst s s'. unfold calculate_summary. cbv zeta.
  rewrite Hledger, comprehension_app. cbn [comprehension].
  destruct (is_active_in_month txn m) eqn:Hact.
  - cbn [Summary.transactions Summary.inflows Summary.outflows].
    rewrite !comprehension_app. cbn [comprehension].
    change (type txn) with (AddArgs.type args).
    change (amount txn) with (AddArgs.amount args).
    split; [reflexivity|].
    split.
    + destruct (String.eqb (AddArgs.type args) "inflow");
        [|now rewrite app_nil_r].
      now rewrite !Hsum, fold_left_app.
    + destruct (String.eqb (AddArgs.type args) "outflow");
        [|now rewrite app_nil_r].
      now rewrite !Hsum, fold_left_app.
  - now rewrite app_nil_r.
Qed.

Lemma added_transaction_enters_summary_witness :
  let w := fresh_world tally_ids in
  let w' := snd (handle_add add_salary w) in
  let txn := entered add_salary w in
  let s := calculate_summary (current_ledger w) "2024-02" 200%Z in
  let s' := calculate_summary (current_ledger w') "2024-02" 200%Z in
  if is_active_in_month txn "2024-02" then
    Summary.transactions s' = (Summary.transactions s ++ [txn])%list /\
    Summary.inflows s' =
      (if String.eqb (AddArgs.type add_salary) "inflow"
       then add (Summary.inflows s) (AddArgs.amount add_salary)
       else Summary.inflows s) /\
    Summary.outflows s' =
      (if String.eqb (AddArgs.type add_salary) "outflow"
       then add (Summary.outflows s) (AddArgs.amount add_salary)
       else Summary.outflows s)
  else s' = s.
Proof.
  apply (added_transaction_enters_summary add_salary (fresh_world tally_ids)
           (snd (handle_add add_salary (fresh_world tally_ids))) "2024-02" 200%Z).
  - intros xs. reflexivity.
  - reflexivity.
Defined.



(** ** Sessions *)

Section Sessions.
Context {A : Type} `{Number A} `{Format2f A}.
Implicit Types (w : World A) (c : command A).

Lemma store_invariant_fresh (ids : nat -> string) :
  store_invariant (fresh_world ids : World A).
Proof.
  split; [constructor|]. exists []. repeat split; constructor.
Qed.

(** Printing touches neither the file nor the identifier source. *)
Lemma store_invariant_printed w (lines : list string) :
  store_invariant w -> store_invariant (printed w lines).
Proof. intros Hinv. exact Hinv. Qed.

Lemma entered_id (args : AddArgs.t A) w :
  id (entered args w) = uuids w (uuids_drawn w).
Proof. reflexivity. Qed.

(** Every command keeps the invariant and the identifier source. *)
Lemma invoke_keeps_invariant c w :
  store_invariant w ->
  store_invariant (snd (invoke c w)) /\ uuids (snd (invoke c w)) = uuids w.
Proof.
  intros [Hvalid (draws & Hids & Hnodup & Hbelow)].
  destruct c as [args|month_|m o|]; simpl invoke.
  - destruct (handle_add args w) as [[[]|e] w'] eqn:Hrun; simpl snd.
    + apply handle_add_returns in Hrun as [-> Hnew].
      split; [|reflexivity]. split.
      * change (Forall validated
                  (get_transactions
                     (append_transaction (current_ledger w) (entered args w)))).
        rewrite get_transactions_append. apply Forall_app. split; [exact Hvalid|].
        now constructor.
      * exists (draws ++ [uuids_drawn w])%list.
        change (map id (get_transactions
                  (append_transaction (current_ledger w) (entered args w)))
                = map (uuids w) (draws ++ [uuids_drawn w])%list
                /\ NoDup (draws ++ [uuids_drawn w])%list
                /\ Forall (fun k => k < S (uuids_drawn w))
                     (draws ++ [uuids_drawn w])%list).
        rewrite get_transactions_append, !map_app, Hids. simpl map.
        split; [reflexivity|]. split.
        -- apply NoDup_app. repeat split; [exact Hnodup| |apply NoDup_singleton].
           intros k Hk Hk'. apply list_elem_of_singleton in Hk'. subst k.
           rewrite Forall_forall in Hbelow. specialize (Hbelow _ Hk). lia.
        -- apply Forall_app. split; [|constructor; [lia|constructor]].
           eapply Forall_impl; [exact Hbelow|]. simpl. intros k Hk. lia.
    + apply handle_add_raises in Hrun as ->.
      split; [|reflexivity]. split; [exact Hvalid|].
      exists draws. repeat split; try assumption.
      eapply Forall_impl; [exact Hbelow|]. simpl. intros k Hk. lia.
  - rewrite handle_list_step. simpl snd. split; [|reflexivity].
    apply store_invariant_printed. split; [exact Hvalid|]. now exists draws.
  - rewrite handle_summary_step. simpl snd. split; [|reflexivity].
    apply store_invariant_printed. split; [exact Hvalid|]. now exists draws.
  - rewrite handle_reset_step. simpl snd. split; [|reflexivity].
    split; [constructor|]. exists []. repeat split; constructor.
Qed.

Lemma session_keeps_invariant (cs : list (command A)) w :
  store_invariant w ->
  store_invariant (session cs w) /\ uuids (session cs w) = uuids w.
Proof.
  revert w. induction cs as [|c cs IH]; intros w Hinv; simpl session.
  - now split.
  - destruct (invoke_keeps_invariant c w Hinv) as [Hinv' Hids].
    destruct (IH _ Hinv') as [Hinv'' Hids'].
    split; [exact Hinv''|]. now rewrite Hids'.
Qed.

End Sessions.

Lemma session_keeps_invariant_valid {A : Type} `{Number A} `{Format2f A}
    (cs : list (command A)) (ids : nat -> string) :
  Forall validated
    (get_transactions (current_ledger (session cs (fresh_world ids)))).
Proof.
  destruct (session_keeps_invariant cs (fresh_world ids) (store_invariant_fresh ids))
    as [[Hvalid _] _].
  exact Hvalid.
Qed.

Lemma tally_ids_injective (i j : nat) : tally_ids i = tally_ids j -> i = j.
Proof.
  revert j. induction i as [|i IH]; intros [|j]; simpl; try discriminate.
  - reflexivity.
  - intros [= Hij]. f_equal. now apply IH.
Qed.

(** Whatever commands are issued against a store that started absent, and
    whether they returned or raised, every transaction then in the store
    satisfies the four construction checks: a legal type, and a present,
    non-empty month (one-time) or start month (recurring). *)
Theorem session_store_stays_validated {A : Type} `{Number A} `{Format2f A}
    (cs : list (command A)) (ids : nat -> string) :
  Forall validated
    (get_transactions (current_ledger (session cs (fresh_world ids)))).
Proof. exact (session_keeps_invariant_valid cs ids). Qed.

(** When the identifier source never repeats itself, the transactions in
    the store have pairwise distinct identifiers after any session started
    from an absent store, however many entries were refused or stores
    cleared on the way. *)
Theorem session_identifiers_distinct {A : Type} `{Number A} `{Format2f A}
    (cs : list (command A)) (ids : nat -> string) :
  (forall i j, ids i = ids j -> i = j) ->
  NoDup (map id (get_transactions (current_ledger (session cs (fresh_world ids))))).
Proof.
  intros Hinj.
  destruct (session_keeps_invariant cs (fresh_world ids) (store_invariant_fresh ids))
    as [[_ (draws & Hids & Hnodup & _)] Hsource].
  rewrite Hids, Hsource. simpl uuids.
  clear Hids. induction Hnodup as [|k draws Hk _ IH]; simpl; constructor.
  - intros Hin. apply Hk. apply list_elem_of_In in Hin. apply in_map_iff in Hin.
    destruct Hin as (k' & Heq & Hk'). apply Hinj in Heq. subst k'.
    now apply list_elem_of_In.
  - exact IH.
Qed.

Lemma session_identifiers_distinct_witness :
  NoDup (map id (get_transactions
                   (current_ledger
                      (session (H0:=small_int_Format2f) sample_session
                         (fresh_world tally_ids))))).
Proof.
  apply (session_identifiers_distinct (H0:=small_int_Format2f) sample_session tally_ids).
  exact tally_ids_injective.
Defined.

(** The sample session, as printed and as stored. *)
Example sample_session_result :
  let w := session (H0:=small_int_Format2f) sample_session (fresh_world tally_ids) in
  stdout w =
    ["Added inflow 'Salary' with id #";
     "Added outflow 'Rent' with id ii#";
     "[#] Salary | inflow | $3000.00 | recurring (2024-01+) | income";
     "[ii#] Rent | outflow | $1200.00 | recurring (2024-01+) | housing";
     "Cash flow summary for 2024-02";
     "Opening balance: $200.00";
     "Total inflows:  $3000.00";
     "Total outflows: $1200.00";
     "Net income:      $1800.00";
     "Closing balance: $2000.00";
     String "010" "Transactions contributing to this month:";
     "- Salary ($3000.00, inflow, recurring, from 2024-01)";
     "- Rent ($1200.00, outflow, recurring, from 2024-01)"] /\
  map id (get_transactions (current_ledger w)) = ["#"; "ii#"].
Proof. split; reflexivity. Qed.

(** ** Totals over validated ledgers *)

Lemma Forall_comprehension {X : Type} (P : X -> Prop) (p : X -> bool) (xs : list X) :
  Forall P xs -> Forall P (comprehension (fun x => x) p xs).
Proof.
  induction 1 as [|x xs Hx _ IH]; simpl; [constructor|].
  destruct (p x); [now constructor|exact IH].
Qed.

Lemma Forall_comprehension_map {X Y : Type} (P : Y -> Prop) (f : X -> Y)
    (p : X -> bool) (xs : list X) :
  Forall (fun x => P (f x)) xs -> Forall P (comprehension f p xs).
Proof.
  induction 1 as [|x xs Hx _ IH]; simpl; [constructor|].
  destruct (p x); [now constructor|exact IH].
Qed.

Lemma int_sum_cons (x : Z) (xs : list Z) :
  fold_left Z.add (x :: xs) 0%Z = (x + fold_left Z.add xs 0)%Z.
Proof. cbn [fold_left]. rewrite int_sum_from. lia. Qed.

Lemma int_sum_nonneg (xs : list Z) :
  Forall (fun x => (0 <= x)%Z) xs -> (0 <= fold_left Z.add xs 0)%Z.
Proof.
  induction 1 as [|x xs Hx _ IH]; [simpl; lia|].
  rewrite int_sum_cons. lia.
Qed.

(** Each validated transaction is counted once: as an inflow or as an
    outflow. *)
Lemma validated_split_totals (txns : list (Transaction Z)) :
  Forall validated txns ->
  (fold_left Z.add
     (comprehension amount (fun t => String.eqb (type t) "inflow") txns) 0
   + fold_left Z.add
       (comprehension amount (fun t => String.eqb (type t) "outflow") txns) 0
   = fold_right Z.add 0 (map amount txns))%Z.
Proof.
  induction 1 as [|t txns [[Hty|Hty] _] _ IH]; [reflexivity| |];
    cbn [comprehension map fold_right]; rewrite Hty; simpl String.eqb; cbv iota;
    rewrite int_sum_cons; lia.
Qed.

(** In a ledger of validated transactions with int amounts nothing that
    contributes is left out of the totals: inflows and outflows together are
    the sum of the amounts of the contributing transactions.  (A stored
    transaction of another type would be listed and counted nowhere.) *)
Theorem validated_totals_cover_contributions
    (data : gmap string (list (Transaction Z))) (m : string) (o : Z) :
  Forall validated (get_transactions data) ->
  let s := calculate_summary data m o in
  (Summary.inflows s + Summary.outflows s
   = fold_right Z.add 0 (map amount (Summary.transactions s)))%Z.
Proof.
  intros Hvalid s. subst s.
  apply validated_split_totals, Forall_comprehension, Hvalid.
Qed.

Lemma validated_totals_cover_contributions_witness :
  let s := calculate_summary
             (current_ledger
                (session (H0:=small_int_Format2f) sample_session
                   (fresh_world tally_ids))) "2024-02" 200%Z in
  (Summary.inflows s + Summary.outflows s
   = fold_right Z.add 0 (map amount (Summary.transactions s)))%Z.
Proof.
  apply (validated_totals_cover_contributions
           (current_ledger
              (session (H0:=small_int_Format2f) sample_session
                 (fresh_world tally_ids))) "2024-02" 200%Z).
  exact (session_keeps_invariant_valid (H0:=small_int_Format2f) sample_session tally_ids).
Defined.

(** With int amounts that are not negative, neither total is negative and
    the closing balance lies between the opening balance less the outflows
    and the opening balance plus the inflows. *)
Theorem nonnegative_amounts_bound_closing
    (data : gmap string (list (Transaction Z))) (m : string) (o : Z) :
  Forall (fun t => (0 <= amount t)%Z) (get_transactions data) ->
  let s := calculate_summary data m o in
  (0 <= Summary.inflows s)%Z /\ (0 <= Summary.outflows s)%Z /\
  (o - Summary.outflows s <= Summary.closing_balance s <= o + Summary.inflows s)%Z.
Proof.
  intros Hpos s.
  assert (Hsum : forall p : Transaction Z -> bool,
             (0 <= fold_left Z.add
                     (comprehension amount p (Summary.transactions s)) 0)%Z).
  { intros p. apply int_sum_nonneg, Forall_comprehension_map.
    apply (Forall_comprehension _ (fun t => is_active_in_month t m)), Hpos. }
  pose proof (Hsum (fun t => String.eqb (type t) "inflow")) as Hin.
  pose proof (Hsum (fun t => String.eqb (type t) "outflow")) as Hout.
  change (0 <= Summary.inflows s)%Z in Hin.
  change (0 <= Summary.outflows s)%Z in Hout.
  change (Summary.closing_balance s)
    with (o + (Summary.inflows s - Summary.outflows s))%Z.
  lia.
Qed.

Lemma nonnegative_amounts_bound_closing_witness :
  let s := calculate_summary test_ledger "2024-02" 200%Z in
  (0 <= Summary.inflows s)%Z /\ (0 <= Summary.outflows s)%Z /\
  (200 - Summary.outflows s <= Summary.closing_balance s <= 200 + Summary.inflows s)%Z.
Proof.
  apply (nonnegative_amounts_bound_closing test_ledger "2024-02" 200%Z).
  repeat constructor; discriminate.
Defined.


